(** * Timer: an error-correcting interval timer (Timer.hpp)

    A shallow embedding of the class template [Timer<T>] and of its two
    instantiations, [KernelTimer] ([Timer<long long>], microseconds) and
    [TimerSDL] ([Timer<Uint32>], milliseconds), followed by the properties
    of its polling algorithm.

    - the time unit [T] is an integer type; a value of type [T] is a [Z] and
      every arithmetic operation of the source is followed by the wrap-around
      of [T], written out;
    - the time functor is an external source of samples: a [Clock] holds the
      successive values it returns and counts the calls made so far;
    - a method that calls the time functor is a computation over the clock,
      a [const] method returns no timer, a mutating one returns the new one. *)

From Stdlib Require Import ZArith Bool List Lia.
Import ListNotations.

Local Open Scope Z_scope.

(** ** The time unit [T] *)

(** The template parameter.  [Unsigned w] is an unsigned integer type of [w]
    bits whose arithmetic is done at its own width (rank of [unsigned int] or
    more, so that no integral promotion takes place); [Signed w] is a two's
    complement type of [w] bits.  Signed overflow is undefined in C++: the
    model wraps it, and the general theorems below are stated where it does
    not happen. *)
Inductive TimeUnit : Type :=
| Unsigned (w : Z)
| Signed (w : Z).

(** [Uint32], the unit of [TimerSDL]. *)
Definition Uint32 : TimeUnit := Unsigned 32.

(** [typedef long long kernel_timer_t], the unit of [KernelTimer]. *)
Definition kernel_timer_t : TimeUnit := Signed 64.

Definition width (T : TimeUnit) : Z :=
  match T with Unsigned w => w | Signed w => w end.

Definition tmin (T : TimeUnit) : Z :=
  match T with
  | Unsigned _ => 0
  | Signed w => - 2 ^ (w - 1)
  end.

Definition tmax (T : TimeUnit) : Z :=
  match T with
  | Unsigned w => 2 ^ w - 1
  | Signed w => 2 ^ (w - 1) - 1
  end.

(** Conversion of a mathematical integer to [T]. *)
Definition wrap (T : TimeUnit) (z : Z) : Z :=
  match T with
  | Unsigned w => z mod 2 ^ w
  | Signed w => (z + 2 ^ (w - 1)) mod 2 ^ w - 2 ^ (w - 1)
  end.

Definition representable (T : TimeUnit) (z : Z) : Prop :=
  tmin T <= z <= tmax T.

(** [a + b], [a - b] and [a ++] at type [T]. *)
Definition add (T : TimeUnit) (a b : Z) : Z := wrap T (a + b).
Definition sub (T : TimeUnit) (a b : Z) : Z := wrap T (a - b).
Definition incr (T : TimeUnit) (a : Z) : Z := wrap T (a + 1).

(** ** The time functor *)

(** [source n] is the value returned by the [n]-th call of the time functor,
    [reads] the number of calls made so far. *)
Record Clock : Type := mkClock {
  source : nat -> Z;
  reads : nat
}.

(** The sample the next call returns. *)
Definition peek (c : Clock) : Z := source c (reads c).

(** The clock after one call. *)
Definition tick (c : Clock) : Clock :=
  {| source := source c; reads := S (reads c) |}.

(** A clock that returns the samples of [l] in turn, then [d] for ever. *)
Definition clock_of (l : list Z) (d : Z) : Clock :=
  {| source := fun n => nth n l d; reads := 0 |}.

(** Every sample is a value of type [T]. *)
Definition clock_in (T : TimeUnit) (c : Clock) : Prop :=
  forall n, representable T (source c n).

(** Computations that call the time functor. *)
Definition M (A : Type) : Type := Clock -> A * Clock.

Definition ret {A : Type} (a : A) : M A := fun c => (a, c).

Definition bind {A B : Type} (m : M A) (k : A -> M B) : M B :=
  fun c => let (a, c') := m c in k a c'.

Notation "x <- m ;; k" := (bind m (fun x => k))
  (at level 61, m at next level, right associativity).

(** One call of the time functor [_timeFunc]. *)
Definition timeFunc : M Z := fun c => (peek c, tick c).

(** ** The timer state *)

Record Timer : Type := mkTimer {
  _interval : Z;
  _t0 : Z;
  _t1 : Z;
  _terr : Z;
  _tstart : Z;
  _frames : Z;
  _started : bool;
  _paused : bool
}.

(** Assignments to one member. *)
Definition set_interval (v : Z) (tm : Timer) : Timer :=
  mkTimer v (_t0 tm) (_t1 tm) (_terr tm) (_tstart tm) (_frames tm)
          (_started tm) (_paused tm).
Definition set_t0 (v : Z) (tm : Timer) : Timer :=
  mkTimer (_interval tm) v (_t1 tm) (_terr tm) (_tstart tm) (_frames tm)
          (_started tm) (_paused tm).
Definition set_t1 (v : Z) (tm : Timer) : Timer :=
  mkTimer (_interval tm) (_t0 tm) v (_terr tm) (_tstart tm) (_frames tm)
          (_started tm) (_paused tm).
Definition set_terr (v : Z) (tm : Timer) : Timer :=
  mkTimer (_interval tm) (_t0 tm) (_t1 tm) v (_tstart tm) (_frames tm)
          (_started tm) (_paused tm).
Definition set_tstart (v : Z) (tm : Timer) : Timer :=
  mkTimer (_interval tm) (_t0 tm) (_t1 tm) (_terr tm) v (_frames tm)
          (_started tm) (_paused tm).
Definition set_frames (v : Z) (tm : Timer) : Timer :=
  mkTimer (_interval tm) (_t0 tm) (_t1 tm) (_terr tm) (_tstart tm) v
          (_started tm) (_paused tm).
Definition set_started (v : bool) (tm : Timer) : Timer :=
  mkTimer (_interval tm) (_t0 tm) (_t1 tm) (_terr tm) (_tstart tm)
          (_frames tm) v (_paused tm).
Definition set_paused (v : bool) (tm : Timer) : Timer :=
  mkTimer (_interval tm) (_t0 tm) (_t1 tm) (_terr tm) (_tstart tm)
          (_frames tm) (_started tm) v.

(** Every member holds a value of type [T]. *)
Record timer_in (T : TimeUnit) (tm : Timer) : Prop := {
  interval_in : representable T (_interval tm);
  t0_in : representable T (_t0 tm);
  t1_in : representable T (_t1 tm);
  terr_in : representable T (_terr tm);
  tstart_in : representable T (_tstart tm);
  frames_in : representable T (_frames tm)
}.

(** ** The methods of [Timer<T>] *)

Section TimerImpl.

Variable T : TimeUnit.

Definition started (tm : Timer) : bool := _started tm.

Definition paused (tm : Timer) : bool := _paused tm.

(** [Timer<T>::reset] *)
Definition reset (tm : Timer) : M Timer :=
  tnow <- timeFunc ;;
  let tm := set_t0 tnow tm in
  let tm := set_t1 (_t0 tm) tm in
  let tm := set_tstart (_t0 tm) tm in
  let tm := set_terr 0 tm in
  let tm := set_frames 0 tm in
  ret tm.

(** [Timer<T>::_init], on the members as the constructor finds them. *)
Definition _init (tm : Timer) : M Timer :=
  let tm := set_interval 0 tm in
  tm <- reset tm ;;
  let tm := set_started false tm in
  let tm := set_paused false tm in
  ret tm.

(** The constructors: [_init] overwrites every member, so the result does
    not depend on the uninitialised values it starts from. *)
Definition new_Timer : M Timer :=
  _init (mkTimer 0 0 0 0 0 0 false false).

(** [Timer<T>::update] *)
Definition update (tm : Timer) : M (bool * Timer) :=
  if negb (started tm) || paused tm then
    ret (false, tm)
  else
    tnow <- timeFunc ;;
    if tnow <? _t0 tm then
      let tm := set_t0 tnow tm in
      let tm := set_t1 tnow tm in
      let tm := set_tstart tnow tm in
      ret (false, tm)
    else if _interval tm <? _terr tm then
      let tm := set_terr 0 tm in
      let tm := set_t0 (_t1 tm) tm in
      let tm := set_t1 tnow tm in
      let tm := set_frames (incr T (_frames tm)) tm in
      ret (true, tm)
    else if sub T tnow (_t0 tm) >=? sub T (_interval tm) (_terr tm) then
      let tm :=
        if sub T (_interval tm) (_terr tm) >? sub T tnow (_t0 tm) then
          set_terr 0 tm
        else
          set_terr (sub T (sub T tnow (_t0 tm))
                          (add T (_interval tm) (_terr tm))) tm in
      let tm := set_t1 tnow tm in
      let tm := set_t0 (_t1 tm) tm in
      let tm := set_frames (incr T (_frames tm)) tm in
      ret (true, tm)
    else
      ret (false, tm).

(** [Timer<T>::resume] *)
Definition resume (tm : Timer) : M Timer :=
  if paused tm then
    let dt := sub T (_t1 tm) (_t0 tm) in
    tnow <- timeFunc ;;
    let tm := set_t0 tnow tm in
    let tm := set_t1 (add T tnow dt) tm in
    let tm := set_paused false tm in
    ret tm
  else
    ret tm.

(** [Timer<T>::start] *)
Definition start (interval : Z) (tm : Timer) : M Timer :=
  let tm := set_interval interval tm in
  tm <- reset tm ;;
  tm <- resume tm ;;
  let tm := set_started true tm in
  ret tm.

(** [Timer<T>::stop] *)
Definition stop (tm : Timer) : Timer :=
  let tm := set_interval 0 tm in
  let tm := set_started false tm in
  tm.

(** [Timer<T>::pause] *)
Definition pause (tm : Timer) : Timer := set_paused true tm.

(** [Timer<T>::elapsed] *)
Definition elapsed (tm : Timer) : Z := sub T (_t1 tm) (_tstart tm).

(** [Timer<T>::getTicks] *)
Definition getTicks (tm : Timer) : Z := _t1 tm.

(** [Timer<T>::getFrames] *)
Definition getFrames (tm : Timer) : Z := _frames tm.

(** [Timer<T>::waitTime] *)
Definition waitTime (tm : Timer) : M Z :=
  tnow <- timeFunc ;;
  if tnow >? add T (add T (_t0 tm) (_terr tm)) (_interval tm) then
    ret 0
  else
    ret (sub T (add T (add T (_t0 tm) (_terr tm)) (_interval tm)) tnow).

End TimerImpl.

(** [static const kernel_timer_t SECOND = 1000000] of [KernelTimer]. *)
Definition KernelTimer_SECOND : Z := 1000000.

(** [static const Uint32 SECOND = 1000] of [TimerSDL]. *)
Definition TimerSDL_SECOND : Z := 1000.

(** Started and not paused: the state in which [update] polls the clock. *)
Definition running (tm : Timer) : Prop :=
  _started tm = true /\ _paused tm = false.


(** ** Scenarios *)

(** The run of the example scenario: a timer is constructed and started
    with [interval]; then [update], [waitTime], and three more [update]s.
    The observations are, in order: the result of the first [update], the
    wait time, the result of the second [update] with [getFrames], the result
    of the third with [getFrames] and the error accumulator, the result of
    the fourth; the timer before the fourth [update] is returned too. *)
Definition example_run (T : TimeUnit) (interval : Z)
  : M (bool * Z * (bool * Z) * (bool * Z * Z) * bool * Timer) :=
  tm <- new_Timer ;;
  tm <- start T interval tm ;;
  r1 <- update T tm ;;
  let tm := snd r1 in
  w1 <- waitTime T tm ;;
  r2 <- update T tm ;;
  let tm := snd r2 in
  let f2 := getFrames tm in
  r3 <- update T tm ;;
  let tm := snd r3 in
  let f3 := getFrames tm in
  let e3 := _terr tm in
  r4 <- update T tm ;;
  ret (fst r1, w1, (fst r2, f2), (fst r3, f3, e3), fst r4, tm).

(** The samples of the example: one for the constructor, one for [start],
    then 50,000 twice ([update] and [waitTime]), 100,000, 250,000 and
    260,000. *)
Definition example_clock : Clock :=
  clock_of [0; 0; 50000; 50000; 100000; 250000; 260000] 260000.

(** The timer of the example after its third [update], the one at sample
    250,000. *)
Definition example_timer : Timer :=
  mkTimer 100000 250000 250000 50000 0 2 true false.

(** A caller's polling loop: [n] calls of [update]; for each call, its result
    and [getFrames] after it, and the timer at the end. *)
Fixpoint polls (T : TimeUnit) (n : nat) (tm : Timer)
  : M (list (bool * Z) * Timer) :=
  match n with
  | O => ret ([], tm)
  | S n' =>
      r <- update T tm ;;
      let tm := snd r in
      rest <- polls T n' tm ;;
      ret ((fst r, getFrames tm) :: fst rest, snd rest)
  end.

(** The number of [true] results among the observations of [polls]. *)
Fixpoint count_true (l : list (bool * Z)) : Z :=
  match l with
  | [] => 0
  | (b, _) :: l' => (if b then 1 else 0) + count_true l'
  end.

(** The frame counts seen after the calls, from [f] before the first. *)
Fixpoint frames_non_decreasing (f : Z) (l : list (bool * Z)) : Prop :=
  match l with
  | [] => True
  | (_, f') :: l' => f <= f' /\ frames_non_decreasing f' l'
  end.

(** The last frame count seen, [f] when no call was made. *)
Fixpoint last_frames (f : Z) (l : list (bool * Z)) : Z :=
  match l with
  | [] => f
  | (_, f') :: l' => last_frames f' l'
  end.

(** A timer is constructed, started with [interval], and polled [n]
    times. *)
Definition start_polls_run (T : TimeUnit) (interval : Z) (n : nat)
  : M (list (bool * Z) * Timer) :=
  tm <- new_Timer ;;
  tm <- start T interval tm ;;
  polls T n tm.

(** Pause and resume: a timer is constructed, started with [interval],
    paused, resumed, and polled once. *)
Definition pause_resume_run (T : TimeUnit) (interval : Z)
  : M (bool * Timer) :=
  tm <- new_Timer ;;
  tm <- start T interval tm ;;
  let tm := pause tm in
  tm <- resume T tm ;;
  update T tm.

(** ** The public interface as a caller drives it *)

(** One call of a public method of [Timer<T>] that touches the state or the
    time functor. *)
Inductive Op : Type :=
| OpStart (interval : Z)
| OpStop
| OpPause
| OpResume
| OpUpdate
| OpReset
| OpWaitTime.

(** The effect of one call on the timer and on the clock; the results of
    [update] and [waitTime] are dropped. *)
Definition step (T : TimeUnit) (o : Op) (tm : Timer) : M Timer :=
  match o with
  | OpStart interval => start T interval tm
  | OpStop => ret (stop tm)
  | OpPause => ret (pause tm)
  | OpResume => resume T tm
  | OpUpdate => r <- update T tm ;; ret (snd r)
  | OpReset => reset tm
  | OpWaitTime => _ <- waitTime T tm ;; ret tm
  end.

(** A sequence of calls, in order. *)
Fixpoint run (T : TimeUnit) (ops : list Op) (tm : Timer) : M Timer :=
  match ops with
  | [] => ret tm
  | o :: ops' => tm <- step T o tm ;; run T ops' tm
  end.

(** The life of a timer: construction, then a sequence of calls. *)
Definition session (T : TimeUnit) (ops : list Op) : M Timer :=
  tm <- new_Timer ;; run T ops tm.

(** ** [KernelTimer] *)

(** [a * b] at type [T]. *)
Definition mul (T : TimeUnit) (a b : Z) : Z := wrap T (a * b).

(** [struct timeval], as [gettimeofday] fills it. *)
Record timeval : Type := mkTimeval {
  tv_sec : Z;
  tv_usec : Z
}.

(** [struct timespec], as [nanosleep] takes it; its members are [tv_sec]
    and [tv_nsec] in C. *)
Record timespec : Type := mkTimespec {
  ts_sec : Z;
  ts_nsec : Z
}.

(** [KernelTimer::KernelTimerCallback::operator()], on the [timeval] that
    [gettimeofday] has written. *)
Definition KernelTimerCallback (tv : timeval) : Z :=
  add kernel_timer_t
      (mul kernel_timer_t KernelTimer_SECOND (tv_sec tv))
      (tv_usec tv).

(** [KernelTimer::sleepyTime] up to its first call of [nanosleep]: the
    request [req] built from [waitTime ()].  The division and the remainder
    of C++ truncate towards zero; the members of [req] are taken as wide as
    [long long], as they are where [long] has 64 bits. *)
Definition KernelTimer_sleepyTime_req (tm : Timer) : M timespec :=
  twait <- waitTime kernel_timer_t tm ;;
  ret {| ts_sec := Z.quot twait KernelTimer_SECOND;
         ts_nsec := mul kernel_timer_t
                        (Z.rem twait KernelTimer_SECOND) 1000 |}.

(** A [timeval] as [gettimeofday] returns it: seconds since the epoch and
    microseconds below a second. *)
Definition timeval_ok (tv : timeval) : Prop :=
  0 <= tv_sec tv /\ 0 <= tv_usec tv < 1000000.

(** The observations of a polling loop on a regular grid: poll [j] (from 0)
    comes [r + j + 1] steps after the window began; the interval is [k]
    steps and [f] frames were counted before. *)
Definition grid_obs (k f r : Z) (n : nat) : list (bool * Z) :=
  map (fun j : nat =>
         ((r + Z.of_nat j + 1) mod k =? 0, f + (r + Z.of_nat j + 1) / k))
      (seq 0 n).

(** The time functor never goes backwards from the next call on. *)
Definition monotone_from (c : Clock) : Prop :=
  forall j : nat, source c (reads c + j) <= source c (reads c + S j).

(** Opens [update] on a timer given by its members. *)
Ltac open_update :=
  unfold update, started, paused, bind, timeFunc, ret,
    set_interval, set_t0, set_t1, set_terr, set_tstart, set_frames,
    set_started, set_paused;
  cbn [_interval _t0 _t1 _terr _tstart _frames _started _paused negb orb].

(** ** Arithmetic at type [T] *)

Lemma pow2_width_pos (T : TimeUnit) : 0 < width T -> 0 < 2 ^ width T.
Proof. intros; apply Z.pow_pos_nonneg; lia. Qed.

Lemma pow2_width_split (T : TimeUnit) :
  0 < width T -> 2 ^ width T = 2 * 2 ^ (width T - 1).
Proof.
  intros; rewrite <- Z.pow_succ_r by lia.
  f_equal; lia.
Qed.

Lemma tmin_le_0 (T : TimeUnit) : 0 < width T -> tmin T <= 0.
Proof.
  destruct T as [w | w]; simpl; intros; [lia |].
  assert (0 < 2 ^ (w - 1)) by (apply Z.pow_pos_nonneg; lia).
  lia.
Qed.

Lemma tmax_ge_0 (T : TimeUnit) : 0 < width T -> 0 <= tmax T.
Proof.
  destruct T as [w | w]; simpl; intros.
  - assert (0 < 2 ^ w) by (apply Z.pow_pos_nonneg; lia). lia.
  - assert (0 < 2 ^ (w - 1)) by (apply Z.pow_pos_nonneg; lia). lia.
Qed.

Lemma representable_0 (T : TimeUnit) : 0 < width T -> representable T 0.
Proof. split; [apply tmin_le_0 | apply tmax_ge_0]; assumption. Qed.

(** A value of type [T] converts to itself. *)
Lemma wrap_id (T : TimeUnit) (z : Z) :
  0 < width T -> representable T z -> wrap T z = z.
Proof.
  unfold representable; intros Hw Hz.
  pose proof (pow2_width_split T Hw) as Hs.
  destruct T as [w | w]; cbn [wrap tmin tmax width] in *.
  - apply Z.mod_small; lia.
  - rewrite Z.mod_small; lia.
Qed.

(** A conversion yields a value of type [T]. *)
Lemma wrap_representable (T : TimeUnit) (z : Z) :
  0 < width T -> representable T (wrap T z).
Proof.
  unfold representable; intros Hw.
  pose proof (pow2_width_split T Hw) as Hs.
  pose proof (pow2_width_pos T Hw) as Hp.
  destruct T as [w | w]; cbn [wrap tmin tmax width] in *.
  - pose proof (Z.mod_pos_bound z (2 ^ w) Hp). lia.
  - pose proof (Z.mod_pos_bound (z + 2 ^ (w - 1)) (2 ^ w) Hp). lia.
Qed.

Lemma wrap_0 (T : TimeUnit) : 0 < width T -> wrap T 0 = 0.
Proof. intros; apply wrap_id, representable_0; assumption. Qed.

Lemma sub_diag (T : TimeUnit) (a : Z) : 0 < width T -> sub T a a = 0.
Proof. intros; unfold sub. rewrite Z.sub_diag. apply wrap_0; assumption. Qed.

Lemma sub_exact (T : TimeUnit) (a b : Z) :
  0 < width T -> representable T (a - b) -> sub T a b = a - b.
Proof. apply wrap_id. Qed.

Lemma add_exact (T : TimeUnit) (a b : Z) :
  0 < width T -> representable T (a + b) -> add T a b = a + b.
Proof. apply wrap_id. Qed.

Lemma incr_exact (T : TimeUnit) (a : Z) :
  0 < width T -> representable T a -> a < tmax T -> incr T a = a + 1.
Proof.
  unfold representable; intros Hw Ha Hlt.
  apply wrap_id; unfold representable; [assumption | lia].
Qed.

(** For an unsigned unit the difference of two ordered values is exact. *)
Lemma sub_unsigned_exact (w a b : Z) :
  representable (Unsigned w) a -> representable (Unsigned w) b ->
  b <= a -> sub (Unsigned w) a b = a - b.
Proof.
  unfold representable, sub; simpl; intros Ha Hb Hle.
  apply Z.mod_small; lia.
Qed.

(** ** The branches of [update] *)

Section UpdateBranches.

Variable T : TimeUnit.

(** Stopped or paused: nothing is sampled, nothing changes. *)
Lemma update_idle (tm : Timer) (c : Clock) :
  _started tm = false \/ _paused tm = true ->
  update T tm c = (false, tm, c).
Proof.
  unfold update, started, paused.
  intros [H | H]; rewrite H; [reflexivity |].
  rewrite orb_true_r; reflexivity.
Qed.

(** The wraparound guard. *)
Lemma update_wrapped (tm : Timer) (c : Clock) :
  running tm -> peek c < _t0 tm ->
  update T tm c =
  (false,
   mkTimer (_interval tm) (peek c) (peek c) (_terr tm) (peek c)
           (_frames tm) (_started tm) (_paused tm),
   tick c).
Proof.
  destruct tm as [i t0 t1 e ts f s p]; unfold running.
  cbn [_interval _t0 _t1 _terr _tstart _frames _started _paused].
  intros [-> ->] Hlt; open_update.
  apply Z.ltb_lt in Hlt; rewrite Hlt.
  reflexivity.
Qed.

(** The debt-repayment branch. *)
Lemma update_debt (tm : Timer) (c : Clock) :
  running tm -> _t0 tm <= peek c -> _interval tm < _terr tm ->
  update T tm c =
  (true,
   mkTimer (_interval tm) (_t1 tm) (peek c) 0 (_tstart tm)
           (incr T (_frames tm)) (_started tm) (_paused tm),
   tick c).
Proof.
  destruct tm as [i t0 t1 e ts f s p]; unfold running.
  cbn [_interval _t0 _t1 _terr _tstart _frames _started _paused].
  intros [-> ->] Hge Hlt; open_update.
  apply Z.ltb_ge in Hge; rewrite Hge.
  apply Z.ltb_lt in Hlt; rewrite Hlt.
  reflexivity.
Qed.

(** The normal boundary branch, as the source writes it: the inner test
    is still there. *)
Lemma update_boundary_raw (tm : Timer) (c : Clock) :
  running tm -> _t0 tm <= peek c -> _terr tm <= _interval tm ->
  sub T (_interval tm) (_terr tm) <= sub T (peek c) (_t0 tm) ->
  update T tm c =
  (true,
   mkTimer (_interval tm) (peek c) (peek c)
           (if sub T (_interval tm) (_terr tm) >? sub T (peek c) (_t0 tm)
            then 0
            else sub T (sub T (peek c) (_t0 tm))
                       (add T (_interval tm) (_terr tm)))
           (_tstart tm) (incr T (_frames tm)) (_started tm) (_paused tm),
   tick c).
Proof.
  destruct tm as [i t0 t1 e ts f s p]; unfold running.
  cbn [_interval _t0 _t1 _terr _tstart _frames _started _paused].
  intros [-> ->] Hge Hle Hfire; open_update.
  apply Z.ltb_ge in Hge; rewrite Hge.
  apply Z.ltb_ge in Hle; rewrite Hle.
  apply Z.geb_le in Hfire; rewrite Hfire.
  destruct (sub T i e >? sub T (peek c) t0); reflexivity.
Qed.

(** The same branch once the inner test is decided. *)
Lemma update_boundary (tm : Timer) (c : Clock) :
  running tm -> _t0 tm <= peek c -> _terr tm <= _interval tm ->
  sub T (_interval tm) (_terr tm) <= sub T (peek c) (_t0 tm) ->
  update T tm c =
  (true,
   mkTimer (_interval tm) (peek c) (peek c)
           (sub T (sub T (peek c) (_t0 tm))
                  (add T (_interval tm) (_terr tm)))
           (_tstart tm) (incr T (_frames tm)) (_started tm) (_paused tm),
   tick c).
Proof.
  intros Hrun Hge Hle Hfire.
  rewrite (update_boundary_raw tm c Hrun Hge Hle Hfire).
  replace (sub T (_interval tm) (_terr tm) >? sub T (peek c) (_t0 tm))
    with false; [reflexivity |].
  symmetry. rewrite Z.gtb_ltb. apply Z.ltb_ge. exact Hfire.
Qed.

(** The interval has not elapsed. *)
Lemma update_waiting (tm : Timer) (c : Clock) :
  running tm -> _t0 tm <= peek c -> _terr tm <= _interval tm ->
  sub T (peek c) (_t0 tm) < sub T (_interval tm) (_terr tm) ->
  update T tm c = (false, tm, tick c).
Proof.
  destruct tm as [i t0 t1 e ts f s p]; unfold running.
  cbn [_interval _t0 _t1 _terr _tstart _frames _started _paused].
  intros [-> ->] Hge Hle Hwait; open_update.
  apply Z.ltb_ge in Hge; rewrite Hge.
  apply Z.ltb_ge in Hle; rewrite Hle.
  assert (Hf : (sub T (peek c) t0 >=? sub T i e) = false).
  { rewrite Z.geb_leb. apply Z.leb_gt. exact Hwait. }
  rewrite Hf; reflexivity.
Qed.

End UpdateBranches.

(** ** The example scenario *)

(** C6.  With interval 100,000 and the timer started at sample 0: at sample
    50,000 [update] returns false and [waitTime] returns 50,000; at sample
    100,000 [update] returns true and the frame count is 1; at sample 250,000
    [update] returns true, the frame count is 2 and the error accumulator is
    50,000; at sample 260,000 [update] returns false.  This holds for
    [KernelTimer] started as the test program starts it, with a tenth of
    [SECOND], and for [TimerSDL] with the same numbers. *)
Theorem example_scenario :
  fst (example_run kernel_timer_t (KernelTimer_SECOND / 10) example_clock)
  = (false, 50000, (true, 1), (true, 2, 50000), false, example_timer)
  /\ fst (example_run Uint32 100000 example_clock)
     = (false, 50000, (true, 1), (true, 2, 50000), false, example_timer).
Proof. split; vm_compute; reflexivity. Qed.

(** ** The normal boundary branch *)

(** C9.  In the normal boundary branch the inner assignment of 0 to the
    error accumulator is dead: whenever the branch is entered (the timer
    runs, the sample is not below [_t0], the accumulator does not exceed the
    interval and [tnow - _t0 >= _interval - _terr]), the inner test
    [_interval - _terr > tnow - _t0] is false, and the accumulator receives
    [(tnow - _t0) - (_interval + _terr)]. *)
Theorem update_boundary_inner_test_dead (T : TimeUnit) (tm : Timer)
    (c : Clock) :
  running tm -> _t0 tm <= peek c -> _terr tm <= _interval tm ->
  sub T (_interval tm) (_terr tm) <= sub T (peek c) (_t0 tm) ->
  (sub T (_interval tm) (_terr tm) >? sub T (peek c) (_t0 tm)) = false
  /\ update T tm c =
     (true,
      mkTimer (_interval tm) (peek c) (peek c)
              (sub T (sub T (peek c) (_t0 tm))
                     (add T (_interval tm) (_terr tm)))
              (_tstart tm) (incr T (_frames tm)) (_started tm) (_paused tm),
      tick c).
Proof.
  intros Hrun Hge Hle Hfire.
  assert (Hdead : (sub T (_interval tm) (_terr tm)
                   >? sub T (peek c) (_t0 tm)) = false).
  { rewrite Z.gtb_ltb. apply Z.ltb_ge. exact Hfire. }
  split; [exact Hdead |].
  rewrite (update_boundary_raw T tm c Hrun Hge Hle Hfire).
  rewrite Hdead; reflexivity.
Qed.

Lemma update_boundary_inner_test_dead_witness :
  (sub kernel_timer_t 100000 50000 >? sub kernel_timer_t 300000 250000)
  = false
  /\ update kernel_timer_t example_timer (clock_of [300000] 300000) =
     (true,
      mkTimer 100000 300000 300000
              (sub kernel_timer_t (sub kernel_timer_t 300000 250000)
                                  (add kernel_timer_t 100000 50000))
              0 (incr kernel_timer_t 2) true false,
      tick (clock_of [300000] 300000)).
Proof.
  apply (update_boundary_inner_test_dead kernel_timer_t example_timer
           (clock_of [300000] 300000)).
  - split; reflexivity.
  - vm_compute; discriminate.
  - vm_compute; discriminate.
  - vm_compute; discriminate.
Defined.

(** C1.  The value stored by the normal boundary branch is not the overshoot
    beyond the compensated threshold when the previous error is not 0.  On
    the timer of the example scenario after its third [update] (interval
    100,000, [_t0] 250,000, error 50,000), the sample 300,000 meets the
    compensated threshold exactly: the branch is taken, [_t0] and [_t1]
    become the sample, the frame count goes from 2 to 3 and the result is
    true, but the stored error is -100,000 for [KernelTimer] and
    4,294,867,296 for [TimerSDL], where the overshoot
    [(tnow - _t0) - (_interval - _terr)] is 0. *)
Theorem boundary_error_is_not_overshoot :
  let tnow := 300000 in
  let c := clock_of [tnow] tnow in
  (running example_timer /\ _t0 example_timer <= tnow
   /\ _terr example_timer <= _interval example_timer
   /\ _interval example_timer - _terr example_timer
      <= tnow - _t0 example_timer)
  /\ (tnow - _t0 example_timer)
     - (_interval example_timer - _terr example_timer) = 0
  /\ fst (update kernel_timer_t example_timer c)
     = (true, mkTimer 100000 tnow tnow (-100000) 0 3 true false)
  /\ fst (update Uint32 example_timer c)
     = (true, mkTimer 100000 tnow tnow 4294867296 0 3 true false).
Proof.
  cbv zeta; repeat split; try (vm_compute; congruence).
Qed.

(** ** [waitTime] *)

(** [waitTime] calls the time functor once and returns the distance from
    the sample to [_t0 + _terr + _interval], the sum being the one the
    source computes at type [T], or 0 when the sample is past it. *)
Lemma waitTime_max (T : TimeUnit) (tm : Timer) (c : Clock) :
  0 < width T ->
  (peek c <= add T (add T (_t0 tm) (_terr tm)) (_interval tm) ->
   add T (add T (_t0 tm) (_terr tm)) (_interval tm) - peek c <= tmax T) ->
  waitTime T tm c =
  (Z.max 0 (add T (add T (_t0 tm) (_terr tm)) (_interval tm) - peek c),
   tick c).
Proof.
  intros Hw Hfit.
  unfold waitTime, bind, timeFunc, ret.
  set (deadline := add T (add T (_t0 tm) (_terr tm)) (_interval tm)) in *.
  destruct (peek c >? deadline) eqn:Hpast.
  - rewrite Z.gtb_ltb in Hpast. apply Z.ltb_lt in Hpast.
    rewrite Z.max_l by lia. reflexivity.
  - rewrite Z.gtb_ltb in Hpast. apply Z.ltb_ge in Hpast.
    rewrite Z.max_r by lia.
    rewrite sub_exact; [reflexivity | assumption |].
    pose proof (tmin_le_0 T Hw).
    specialize (Hfit Hpast).
    unfold representable; lia.
Qed.

(** For an unsigned unit the hypothesis of [waitTime_max] holds as soon as
    the sample is a value of [T], and the result is never negative. *)
Lemma waitTime_unsigned (w : Z) (tm : Timer) (c : Clock) :
  0 < w -> representable (Unsigned w) (peek c) ->
  waitTime (Unsigned w) tm c =
  (Z.max 0 (add (Unsigned w) (add (Unsigned w) (_t0 tm) (_terr tm))
                (_interval tm) - peek c),
   tick c)
  /\ 0 <= fst (waitTime (Unsigned w) tm c).
Proof.
  intros Hw Hin.
  assert (Heq : waitTime (Unsigned w) tm c =
    (Z.max 0 (add (Unsigned w) (add (Unsigned w) (_t0 tm) (_terr tm))
                  (_interval tm) - peek c), tick c)).
  { apply waitTime_max; [exact Hw |].
    intros _.
    pose proof (wrap_representable (Unsigned w)
                  (add (Unsigned w) (_t0 tm) (_terr tm) + _interval tm) Hw)
      as Hsum.
    unfold add at 1. unfold representable in *. cbn [tmin tmax] in *. lia. }
  split; [exact Heq |].
  rewrite Heq; cbn [fst]. apply Z.le_max_l.
Qed.

(** C4.  [waitTime] does not return 0 whenever [update] would return true
    with the same sample.  On the timer of the example scenario after its
    third [update], at sample 300,000, [update] returns true (the compensated
    threshold [_interval - _terr] is met) while [waitTime] returns 100,000:
    [waitTime] adds the error accumulator to the deadline where [update]
    subtracts it from the interval. *)
Theorem waitTime_positive_when_update_fires :
  let c := clock_of [300000] 300000 in
  fst (fst (update kernel_timer_t example_timer c)) = true
  /\ fst (waitTime kernel_timer_t example_timer c) = 100000
  /\ fst (fst (update Uint32 example_timer c)) = true
  /\ fst (waitTime Uint32 example_timer c) = 100000.
Proof. cbv zeta; repeat split; vm_compute; reflexivity. Qed.

(** ** The wraparound guard *)

(** C7.  When the timer runs and the sample is below [_t0], [update] sets
    [_t0], [_t1] and [_tstart] to the sample, changes nothing else and
    returns false; it is a total function, so nothing is signalled, and the
    elapsed time it leaves is 0.  The next [update], with a sample at or
    after the new baseline, measures the non-negative gap from that baseline:
    it returns true exactly when the error accumulator exceeds the interval
    or the gap reaches [_interval - _terr]. *)
Theorem update_wraparound_resets_baseline (T : TimeUnit) (tm : Timer)
    (c : Clock) :
  0 < width T -> running tm -> peek c < _t0 tm ->
  let tm' := snd (fst (update T tm c)) in
  update T tm c = (false, tm', tick c)
  /\ tm' = mkTimer (_interval tm) (peek c) (peek c) (_terr tm) (peek c)
                   (_frames tm) (_started tm) (_paused tm)
  /\ elapsed T tm' = 0
  /\ forall c' : Clock,
       peek c <= peek c' -> representable T (peek c' - peek c) ->
       sub T (peek c') (_t0 tm') = peek c' - peek c
       /\ 0 <= sub T (peek c') (_t0 tm')
       /\ (fst (fst (update T tm' c')) = true <->
           _interval tm < _terr tm
           \/ sub T (_interval tm) (_terr tm) <= peek c' - peek c).
Proof.
  intros Hw Hrun Hlt.
  rewrite (update_wrapped T tm c Hrun Hlt).
  cbn [fst snd].
  set (tm' := mkTimer (_interval tm) (peek c) (peek c) (_terr tm) (peek c)
                      (_frames tm) (_started tm) (_paused tm)).
  assert (Hrun' : running tm') by exact Hrun.
  split; [reflexivity |].
  split; [reflexivity |].
  split; [unfold elapsed; cbn [_t1 _tstart tm']; apply sub_diag; exact Hw |].
  intros c' Hge Hrep.
  assert (Hgap : sub T (peek c') (_t0 tm') = peek c' - peek c).
  { cbn [_t0 tm']. apply sub_exact; assumption. }
  split; [exact Hgap |].
  split; [rewrite Hgap; lia |].
  destruct (Z_lt_le_dec (_interval tm) (_terr tm)) as [Hdebt | Hnodebt].
  - rewrite (update_debt T tm' c' Hrun' Hge Hdebt). cbn [fst].
    split; [intros _; left; exact Hdebt | reflexivity].
  - destruct (Z_le_gt_dec (sub T (_interval tm) (_terr tm))
                          (peek c' - peek c)) as [Hfire | Hwait].
    + rewrite (update_boundary_raw T tm' c' Hrun' Hge Hnodebt).
      * cbn [fst]. split; [intros _; right; exact Hfire | reflexivity].
      * rewrite Hgap. exact Hfire.
    + rewrite (update_waiting T tm' c' Hrun' Hge Hnodebt).
      * cbn [fst]. split; [discriminate | intros [H | H]; lia].
      * rewrite Hgap. cbn [_interval _terr tm']. lia.
Qed.

Lemma update_wraparound_resets_baseline_witness :
  let tm := example_timer in
  let c := clock_of [1000] 1000 in
  let tm' := snd (fst (update Uint32 tm c)) in
  update Uint32 tm c = (false, tm', tick c)
  /\ tm' = mkTimer 100000 1000 1000 50000 1000 2 true false
  /\ elapsed Uint32 tm' = 0
  /\ forall c' : Clock,
       peek c <= peek c' -> representable Uint32 (peek c' - peek c) ->
       sub Uint32 (peek c') (_t0 tm') = peek c' - peek c
       /\ 0 <= sub Uint32 (peek c') (_t0 tm')
       /\ (fst (fst (update Uint32 tm' c')) = true <->
           _interval tm < _terr tm
           \/ sub Uint32 (_interval tm) (_terr tm) <= peek c' - peek c).
Proof.
  apply (update_wraparound_resets_baseline Uint32 example_timer
           (clock_of [1000] 1000)).
  - reflexivity.
  - split; reflexivity.
  - reflexivity.
Defined.

(** ** The error accumulator *)

(** What a call of [update] that returns true has done. *)
Lemma update_true_inv (T : TimeUnit) (tm tm' : Timer) (c c' : Clock) :
  update T tm c = (true, tm', c') ->
  running tm /\ _t0 tm <= peek c /\ c' = tick c
  /\ ((_interval tm < _terr tm
       /\ tm' = mkTimer (_interval tm) (_t1 tm) (peek c) 0 (_tstart tm)
                        (incr T (_frames tm)) (_started tm) (_paused tm))
      \/ (_terr tm <= _interval tm
          /\ sub T (_interval tm) (_terr tm) <= sub T (peek c) (_t0 tm)
          /\ tm' = mkTimer (_interval tm) (peek c) (peek c)
                           (sub T (sub T (peek c) (_t0 tm))
                                  (add T (_interval tm) (_terr tm)))
                           (_tstart tm) (incr T (_frames tm))
                           (_started tm) (_paused tm))).
Proof.
  intros Hup.
  assert (Hrun : running tm).
  { destruct (_started tm) eqn:Hs; destruct (_paused tm) eqn:Hp;
      try (rewrite update_idle in Hup by (auto; fail); discriminate).
    split; assumption. }
  destruct (Z_lt_le_dec (peek c) (_t0 tm)) as [Hlt | Hge].
  { rewrite (update_wrapped T tm c Hrun Hlt) in Hup. discriminate. }
  split; [exact Hrun |]. split; [exact Hge |].
  destruct (Z_lt_le_dec (_interval tm) (_terr tm)) as [Hdebt | Hnodebt].
  - rewrite (update_debt T tm c Hrun Hge Hdebt) in Hup.
    inversion Hup; subst. split; [reflexivity |]. left; split; auto.
  - destruct (Z_le_gt_dec (sub T (_interval tm) (_terr tm))
                          (sub T (peek c) (_t0 tm))) as [Hfire | Hwait].
    + rewrite (update_boundary T tm c Hrun Hge Hnodebt Hfire) in Hup.
      inversion Hup; subst. split; [reflexivity |]. right; auto.
    + rewrite (update_waiting T tm c Hrun Hge Hnodebt) in Hup by lia.
      discriminate.
Qed.

(** C2, as stated, fails: a [KernelTimer] started with interval 100,000 at
    sample 0 and polled at sample 1,000,000 returns true and is left with an
    error accumulator of 900,000, nine times the interval. *)
Lemma error_exceeds_interval_after_update :
  let r := fst (start_polls_run kernel_timer_t 100000 1
                  (clock_of [0; 0; 1000000] 1000000)) in
  fst r = [(true, 1)]
  /\ _terr (snd r) = 900000
  /\ ~ Z.abs (_terr (snd r)) <= _interval (snd r).
Proof.
  cbv zeta; split; [vm_compute; reflexivity |].
  split; [vm_compute; reflexivity |].
  vm_compute. intros H; apply H; reflexivity.
Qed.

(** C2, amended.  The error accumulator is not clamped when it is stored,
    so it can exceed the interval right after an [update] that returns true;
    what the code guarantees is the repayment.  An [update] that returns
    true through the debt-repayment branch leaves the accumulator at 0; and
    whenever the accumulator exceeds the interval after an [update] that
    returned true, the next [update] whose sample is not below [_t0] returns
    true through the debt-repayment branch and resets the accumulator to 0,
    whatever the time functor returns. *)
Theorem excess_error_cleared_by_next_update (T : TimeUnit) (tm tm' : Timer)
    (c c' : Clock) :
  update T tm c = (true, tm', c') ->
  (_interval tm < _terr tm -> _terr tm' = 0)
  /\ (_interval tm' < _terr tm' ->
      forall c2 : Clock, _t0 tm' <= peek c2 ->
      update T tm' c2 =
      (true,
       mkTimer (_interval tm') (_t1 tm') (peek c2) 0 (_tstart tm')
               (incr T (_frames tm')) (_started tm') (_paused tm'),
       tick c2)).
Proof.
  intros Hup.
  destruct (update_true_inv T tm tm' c c' Hup)
    as (Hrun & Hge & Hc & [[Hdebt Htm] | (Hnodebt & Hfire & Htm)]).
  - split; [intros _; subst tm'; reflexivity |].
    intros Hex c2 Hge2. apply update_debt; try assumption.
    subst tm'; exact Hrun.
  - split; [intros Hdebt; lia |].
    intros Hex c2 Hge2. apply update_debt; try assumption.
    subst tm'; exact Hrun.
Qed.

Lemma excess_error_cleared_by_next_update_witness :
  let tm := mkTimer 100000 0 0 0 0 0 true false in
  let tm' := mkTimer 100000 1000000 1000000 900000 0 1 true false in
  (_interval tm < _terr tm -> _terr tm' = 0)
  /\ (_interval tm' < _terr tm' ->
      forall c2 : Clock, _t0 tm' <= peek c2 ->
      update kernel_timer_t tm' c2 =
      (true,
       mkTimer (_interval tm') (_t1 tm') (peek c2) 0 (_tstart tm')
               (incr kernel_timer_t (_frames tm')) (_started tm')
               (_paused tm'),
       tick c2)).
Proof.
  apply (excess_error_cleared_by_next_update kernel_timer_t
           (mkTimer 100000 0 0 0 0 0 true false)
           (mkTimer 100000 1000000 1000000 900000 0 1 true false)
           (clock_of [1000000] 1000000)
           (tick (clock_of [1000000] 1000000))).
  vm_compute; reflexivity.
Defined.

(** ** Pause and resume *)

(** The timer that [start] leaves: the window opens at the sample. *)
Lemma start_fresh (T : TimeUnit) (interval : Z) (c : Clock) :
  fst ((tm <- new_Timer ;; start T interval tm) c)
  = mkTimer interval (source c (S (reads c))) (source c (S (reads c))) 0
            (source c (S (reads c))) 0 true false.
Proof. reflexivity. Qed.

(** C3.  Pause and resume do not preserve the progress towards the next
    interval.  A [KernelTimer] is started with interval 100,000 at sample
    0; it is paused when the time is 50,000, half the interval ([pause]
    takes no sample), resumed at sample 70,000 and polled at sample 120,000,
    half an interval after the resumption.  [elapsed ()] is 0 before
    [resume] and 70,000 after it, the window is moved to the sample of
    [resume], and [update] returns false where the interval has run for
    its whole length; it returns true only a whole interval after the
    resumption, at sample 170,000. *)
Theorem pause_resume_loses_progress :
  let paused_timer :=
    fst (session kernel_timer_t [OpStart 100000; OpPause]
           (clock_of [0; 0] 0)) in
  let resumed_timer :=
    fst (session kernel_timer_t [OpStart 100000; OpPause; OpResume]
           (clock_of [0; 0; 70000] 70000)) in
  elapsed kernel_timer_t paused_timer = 0
  /\ elapsed kernel_timer_t resumed_timer = 70000
  /\ _t0 resumed_timer = 70000
  /\ fst (pause_resume_run kernel_timer_t 100000
            (clock_of [0; 0; 0 + 100000 / 2 + 20000;
                       0 + 100000 / 2 + 20000 + 100000 / 2] 120000))
     = (false, mkTimer 100000 70000 70000 0 0 0 true false)
  /\ fst (fst (pause_resume_run kernel_timer_t 100000
                 (clock_of [0; 0; 70000; 170000] 170000))) = true.
Proof. cbv zeta. repeat split; vm_compute; reflexivity. Qed.

(** What [resume] leaves after [start] and [pause]: the window is moved to
    the sample of [resume]. *)
Lemma pause_resume_run_update (T : TimeUnit) (i s0 s1 r x : Z) :
  0 < width T -> representable T r ->
  pause_resume_run T i (clock_of [s0; s1; r; x] x)
  = update T (mkTimer i r r 0 s1 0 true false)
             (mkClock (fun n => nth n [s0; s1; r; x] x) 3).
Proof.
  intros Hw Hr.
  cbv [pause_resume_run new_Timer _init start reset resume pause bind
       timeFunc ret set_interval set_t0 set_t1 set_terr set_tstart
       set_frames set_started set_paused paused started peek tick clock_of
       source reads nth _interval _t0 _t1 _terr _tstart _frames _started
       _paused].
  rewrite (sub_diag T s1 Hw).
  unfold add. rewrite Z.add_0_r, (wrap_id T r Hw Hr).
  reflexivity.
Qed.

(** The same for every unit, interval and sample: after [start], [pause]
    and [resume] at sample [r], the [update] that follows at a sample [x]
    not below [r] returns true exactly when [x - r] has reached the
    interval [i]; at [r + i / 2] it returns false. *)
Lemma pause_resume_restarts_window (T : TimeUnit) (i s0 s1 r x : Z) :
  0 < width T -> 0 < i -> representable T i -> representable T r ->
  r <= x -> representable T (x - r) ->
  let res := fst (pause_resume_run T i (clock_of [s0; s1; r; x] x)) in
  (fst res = true <-> i <= x - r)
  /\ (x = r + i / 2 -> fst res = false)
  /\ (x = r + i ->
      res = (true, mkTimer i x x 0 s1 1 true false)
      /\ fst (fst (update T (snd res) (clock_of [x] x))) = false).
Proof.
  intros Hw Hi Hrepi Hr Hle Hgap res.
  assert (Hrun : forall a b e f,
             running (mkTimer i a b e s1 f true false))
    by (intros; split; reflexivity).
  assert (Hthr : sub T i 0 = i).
  { unfold sub. rewrite Z.sub_0_r. apply wrap_id; assumption. }
  assert (Hdiff : sub T x r = x - r) by (apply sub_exact; assumption).
  assert (Hone : incr T 0 = 1).
  { apply incr_exact; [assumption | apply representable_0; assumption |].
    unfold representable in Hrepi; lia. }
  assert (Hres : res = (if i <=? x - r
                        then (true, mkTimer i x x
                                      (sub T (x - r) (add T i 0)) s1 1
                                      true false)
                        else (false, mkTimer i r r 0 s1 0 true false))).
  { subst res. rewrite pause_resume_run_update by assumption.
    destruct (i <=? x - r) eqn:Hcmp.
    - apply Z.leb_le in Hcmp.
      rewrite update_boundary;
        cbn [_interval _t0 _t1 _terr _tstart _frames _started _paused
             peek source reads nth fst];
        try (apply Hrun); try lia.
      rewrite Hdiff, Hone. reflexivity.
    - apply Z.leb_gt in Hcmp.
      rewrite update_waiting;
        cbn [_interval _t0 _t1 _terr _tstart _frames _started _paused
             peek source reads nth fst];
        try (apply Hrun); try lia.
      reflexivity. }
  split; [| split].
  - rewrite Hres. destruct (i <=? x - r) eqn:Hcmp; cbn [fst].
    + apply Z.leb_le in Hcmp. split; auto.
    + apply Z.leb_gt in Hcmp. split; [discriminate | lia].
  - intros Hx. rewrite Hres.
    assert (Hhalf : i / 2 < i) by (apply Z.div_lt; lia).
    replace (i <=? x - r) with false; [reflexivity |].
    symmetry; apply Z.leb_gt; lia.
  - intros Hx. rewrite Hres.
    replace (i <=? x - r) with true by (symmetry; apply Z.leb_le; lia).
    assert (Herr : sub T (x - r) (add T i 0) = 0).
    { unfold add. rewrite Z.add_0_r, (wrap_id T i Hw Hrepi).
      replace (x - r) with i by lia. apply sub_diag; assumption. }
    rewrite Herr. split; [reflexivity |].
    cbn [snd].
    rewrite update_waiting;
      cbn [_interval _t0 _t1 _terr _tstart _frames _started _paused
           peek clock_of source reads nth fst];
      try (apply Hrun); try lia; try reflexivity.
    rewrite Hthr, (sub_diag T x Hw). exact Hi.
Qed.

Lemma pause_resume_restarts_window_witness :
  let res := fst (pause_resume_run kernel_timer_t 100000
                    (clock_of [0; 0; 70000; 170000] 170000)) in
  (fst res = true <-> 100000 <= 170000 - 70000)
  /\ (170000 = 70000 + 100000 / 2 -> fst res = false)
  /\ (170000 = 70000 + 100000 ->
      res = (true, mkTimer 100000 170000 170000 0 0 1 true false)
      /\ fst (fst (update kernel_timer_t (snd res)
                     (clock_of [170000] 170000))) = false).
Proof.
  apply (pause_resume_restarts_window kernel_timer_t
           100000 0 0 70000 170000).
  - reflexivity.
  - reflexivity.
  - split; vm_compute; discriminate.
  - split; vm_compute; discriminate.
  - vm_compute; discriminate.
  - split; vm_compute; discriminate.
Defined.

(** ** The frame counter *)

(** [update] counts one frame, at type [T], exactly when it returns true. *)
Lemma update_frames (T : TimeUnit) (tm : Timer) (c : Clock) :
  _frames (snd (fst (update T tm c)))
  = if fst (fst (update T tm c)) then incr T (_frames tm) else _frames tm.
Proof.
  destruct tm as [i t0 t1 e ts f s p]; open_update.
  destruct s, p; cbn [negb orb fst snd _frames]; try reflexivity.
  destruct (peek c <? t0); [reflexivity |].
  destruct (i <? e); [reflexivity |].
  destruct (sub T (peek c) t0 >=? sub T i e); [| reflexivity].
  destruct (sub T i e >? sub T (peek c) t0); reflexivity.
Qed.

(** One more call in front of a polling loop. *)
Lemma polls_S (T : TimeUnit) (n : nat) (tm : Timer) (c : Clock) :
  fst (polls T (S n) tm c)
  = ((fst (fst (update T tm c)),
      getFrames (snd (fst (update T tm c))))
     :: fst (fst (polls T n (snd (fst (update T tm c)))
                    (snd (update T tm c)))),
     snd (fst (polls T n (snd (fst (update T tm c)))
                 (snd (update T tm c))))).
Proof.
  cbn [polls]. unfold bind at 1.
  destruct (update T tm c) as [[b tm1] c1]. cbn [fst snd].
  unfold bind, ret.
  destruct (polls T n tm1 c1) as [[obs tm2] c2]. reflexivity.
Qed.

(** C8, as stated, fails at the end of the range of [T]: a [TimerSDL] whose
    frame count is 4,294,967,295 and whose interval has elapsed returns true
    and its frame count becomes 0. *)
Lemma frames_wrap_to_zero :
  let tm := mkTimer 1 1000 1000 0 0 4294967295 true false in
  let obs := fst (fst (polls Uint32 1 tm (clock_of [1001] 1001))) in
  running tm
  /\ obs = [(true, 0)]
  /\ ~ frames_non_decreasing (getFrames tm) obs
  /\ last_frames (getFrames tm) obs <> getFrames tm + count_true obs.
Proof.
  cbv zeta. split; [split; reflexivity |].
  split; [vm_compute; reflexivity |].
  split.
  - vm_compute. intros [H _]. apply H; reflexivity.
  - vm_compute. discriminate.
Qed.

(** The state of [frames_wrap_to_zero] is not out of reach: a timer of an
    unsigned unit started with interval 0 fires on every poll, so that its
    frame count is the number of polls modulo [2 ^ w]. *)
Lemma zero_interval_fires_every_poll (w : Z) (n : nat) (s f : Z)
    (c : Clock) :
  0 < w -> (forall k, source c k = s) -> representable (Unsigned w) f ->
  let res := fst (polls (Unsigned w) n
                    (mkTimer 0 s s 0 s f true false) c) in
  count_true (fst res) = Z.of_nat n
  /\ getFrames (snd res) = (f + Z.of_nat n) mod 2 ^ w.
Proof.
  intros Hw Hconst. revert f c Hconst.
  induction n as [| n IH]; intros f c Hconst Hf res.
  - subst res. cbn [polls ret fst snd count_true getFrames _frames].
    split; [reflexivity |].
    rewrite Z.add_0_r. symmetry. exact (wrap_id (Unsigned w) f Hw Hf).
  - subst res. rewrite polls_S.
    assert (Hup : update (Unsigned w) (mkTimer 0 s s 0 s f true false) c
                  = (true,
                     mkTimer 0 s s 0 s (incr (Unsigned w) f) true false,
                     tick c)).
    { rewrite update_boundary;
        cbn [_interval _t0 _t1 _terr _tstart _frames _started _paused];
        unfold peek; rewrite ?Hconst;
        try (split; reflexivity); try lia.
      - rewrite (sub_diag (Unsigned w) s Hw).
        unfold add. rewrite Z.add_0_r, (wrap_0 (Unsigned w) Hw).
        rewrite (sub_diag (Unsigned w) 0 Hw). reflexivity.
      - rewrite !(sub_diag (Unsigned w) _ Hw). lia. }
    rewrite Hup. cbn [fst snd].
    assert (Hf' : representable (Unsigned w) (incr (Unsigned w) f))
      by (apply wrap_representable; exact Hw).
    destruct (IH (incr (Unsigned w) f) (tick c) Hconst Hf')
      as [Hcount Hfr].
    cbn [count_true]. rewrite Hcount. split; [lia |].
    rewrite Hfr. unfold incr; cbn [wrap].
    rewrite Zplus_mod_idemp_l. f_equal. lia.
Qed.

(** The number of [true] results is not negative. *)
Lemma count_true_nonneg (l : list (bool * Z)) : 0 <= count_true l.
Proof.
  induction l as [| [b f] l IH]; cbn [count_true]; [lia |].
  destruct b; lia.
Qed.

(** C8, amended.  In a sequence of calls of [update] in which the frame
    counter does not wrap (the count before the first call plus the number
    of calls that return true does not exceed the largest value of [T]),
    [getFrames] never decreases from one call to the next and its value at
    the end is the value at the beginning plus the number of calls that
    returned true. *)
Theorem frames_count_true_returns (T : TimeUnit) (n : nat) (tm : Timer)
    (c : Clock) :
  0 < width T -> representable T (_frames tm) ->
  _frames tm + count_true (fst (fst (polls T n tm c))) <= tmax T ->
  let res := fst (polls T n tm c) in
  frames_non_decreasing (getFrames tm) (fst res)
  /\ getFrames (snd res) = last_frames (getFrames tm) (fst res)
  /\ getFrames (snd res) = getFrames tm + count_true (fst res)
  /\ 0 <= count_true (fst res) <= Z.of_nat n.
Proof.
  intros Hw. revert tm c.
  induction n as [| n IH]; intros tm c Hrep Hfit res.
  - subst res. cbn. unfold getFrames. repeat split; lia.
  - subst res. rewrite polls_S in *. cbn [fst snd] in *.
    pose proof (update_frames T tm c) as Hstep.
    set (b := fst (fst (update T tm c))) in *.
    set (tm1 := snd (fst (update T tm c))) in *.
    set (c1 := snd (update T tm c)) in *.
    cbn [count_true] in Hfit.
    pose proof (count_true_nonneg (fst (fst (polls T n tm1 c1)))) as Hnn.
    assert (Hf1 : _frames tm1 = _frames tm + (if b then 1 else 0)).
    { rewrite Hstep. destruct b; [| lia].
      apply incr_exact; try assumption. lia. }
    assert (Hrep1 : representable T (_frames tm1)).
    { unfold representable in *. rewrite Hf1. destruct b; lia. }
    assert (Hfit1 : _frames tm1 + count_true (fst (fst (polls T n tm1 c1)))
                    <= tmax T).
    { rewrite Hf1. unfold getFrames in Hfit. destruct b; lia. }
    destruct (IH tm1 c1 Hrep1 Hfit1) as (Hmono & Hlast & Hsum & Hcnt).
    cbn [frames_non_decreasing last_frames count_true].
    unfold getFrames in *.
    repeat split; try assumption; destruct b; lia.
Qed.

Lemma frames_count_true_returns_witness :
  let tm := mkTimer 100 0 0 0 0 4294967294 true false in
  let c := clock_of [10; 20; 100; 110; 120] 120 in
  let res := fst (polls Uint32 5 tm c) in
  frames_non_decreasing (getFrames tm) (fst res)
  /\ getFrames (snd res) = last_frames (getFrames tm) (fst res)
  /\ getFrames (snd res) = getFrames tm + count_true (fst res)
  /\ 0 <= count_true (fst res) <= Z.of_nat 5.
Proof.
  apply (frames_count_true_returns Uint32 5
           (mkTimer 100 0 0 0 0 4294967294 true false)
           (clock_of [10; 20; 100; 110; 120] 120)).
  - reflexivity.
  - split; vm_compute; discriminate.
  - vm_compute; discriminate.
Defined.

(** ** The error accumulator of an unsigned unit *)

(** C10, as stated, fails when the interval is a third of the range of
    [T] or more.  A [TimerSDL] with interval 3,221,225,472, error 805,306,368 and
    [_t0] 0 is polled at sample 2,415,919,104: the gap equals
    [interval - e], the normal boundary branch fires and stores
    [(g - interval - e) mod 2 ^ 32], which is 2,684,354,560 and does not
    exceed the interval; the [update] that follows at the same sample returns
    false and leaves the error as it is. *)
Lemma unsigned_underflow_below_interval :
  let tm := mkTimer 3221225472 0 0 805306368 0 1 true false in
  let c := clock_of [2415919104; 2415919104] 2415919104 in
  let g := peek c - _t0 tm in
  let r := update Uint32 tm c in
  (running tm /\ _t0 tm <= peek c
   /\ 0 < _terr tm <= _interval tm
   /\ _interval tm - _terr tm <= g < _interval tm + _terr tm)
  /\ fst (fst r) = true
  /\ _terr (snd (fst r)) = (g - _interval tm - _terr tm) mod 2 ^ 32
  /\ _terr (snd (fst r)) = 2684354560
  /\ ~ _interval (snd (fst r)) < _terr (snd (fst r))
  /\ _t0 (snd (fst r)) <= peek (snd r)
  /\ update Uint32 (snd (fst r)) (snd r)
     = (false, snd (fst r), tick (snd r)).
Proof.
  cbv zeta. split.
  { split; [split; reflexivity |].
    split; [vm_compute; discriminate |].
    split; split; vm_compute; congruence. }
  split; [vm_compute; reflexivity |].
  split; [vm_compute; reflexivity |].
  split; [vm_compute; reflexivity |].
  split; [vm_compute; discriminate |].
  split; [vm_compute; discriminate |].
  vm_compute; reflexivity.
Qed.

(** The timer of [unsigned_underflow_below_interval] is reached from the
    constructor: started at sample 0, polled at sample 4,026,531,840 (true,
    error 805,306,368), then at sample 0 after the tick counter has wrapped
    (false, the baseline is reset and the error kept). *)
Lemma unsigned_underflow_state_reached :
  fst (start_polls_run Uint32 3221225472 2
         (clock_of [0; 0; 4026531840; 0] 0))
  = ([(true, 1); (false, 1)],
     mkTimer 3221225472 0 0 805306368 0 1 true false).
Proof. vm_compute; reflexivity. Qed.

(** The normal boundary branch of an unsigned unit when the gap is below
    [interval + e]: the subtraction wraps. *)
Lemma unsigned_boundary_stored (w : Z) (tm : Timer) (c : Clock) :
  0 < w -> timer_in (Unsigned w) tm -> representable (Unsigned w) (peek c) ->
  running tm -> _t0 tm <= peek c ->
  0 < _terr tm <= _interval tm ->
  _interval tm - _terr tm <= peek c - _t0 tm < _interval tm + _terr tm ->
  update (Unsigned w) tm c
  = (true,
     mkTimer (_interval tm) (peek c) (peek c)
             ((peek c - _t0 tm - _interval tm - _terr tm) mod 2 ^ w)
             (_tstart tm) (incr (Unsigned w) (_frames tm))
             (_started tm) (_paused tm),
     tick c).
Proof.
  intros Hw Hin Hnow Hrun Hge He Hgap.
  destruct Hin as [Hi Ht0 _ Herr _ _].
  unfold representable in Hi, Ht0, Herr, Hnow. cbn [tmin tmax] in *.
  assert (Hthr : sub (Unsigned w) (_interval tm) (_terr tm)
                 = _interval tm - _terr tm).
  { unfold sub; cbn [wrap]. apply Z.mod_small; lia. }
  assert (Hdiff : sub (Unsigned w) (peek c) (_t0 tm) = peek c - _t0 tm).
  { unfold sub; cbn [wrap]. apply Z.mod_small; lia. }
  assert (Hstored : sub (Unsigned w) (sub (Unsigned w) (peek c) (_t0 tm))
                        (add (Unsigned w) (_interval tm) (_terr tm))
                    = (peek c - _t0 tm - _interval tm - _terr tm) mod 2 ^ w).
  { rewrite Hdiff. unfold sub, add; cbn [wrap].
    rewrite Zminus_mod_idemp_r. f_equal. lia. }
  rewrite (update_boundary (Unsigned w) tm c Hrun Hge) by lia.
  rewrite Hstored. reflexivity.
Qed.

(** The stored value when there is room for it above the interval. *)
Lemma unsigned_boundary_value (w : Z) (tm : Timer) (c : Clock) :
  0 < w -> timer_in (Unsigned w) tm -> representable (Unsigned w) (peek c) ->
  _t0 tm <= peek c ->
  0 < _terr tm <= _interval tm ->
  _interval tm - _terr tm <= peek c - _t0 tm < _interval tm + _terr tm ->
  2 * _interval tm < 2 ^ w + (peek c - _t0 tm) - _terr tm ->
  (peek c - _t0 tm - _interval tm - _terr tm) mod 2 ^ w
  = 2 ^ w + (peek c - _t0 tm) - _interval tm - _terr tm.
Proof.
  intros Hw Hin Hnow Hge He Hgap Hroom.
  destruct Hin as [Hi Ht0 _ Herr _ _].
  unfold representable in Hi, Ht0, Herr, Hnow. cbn [tmin tmax] in *.
  rewrite <- (Z_mod_plus_full _ 1 (2 ^ w)).
  rewrite Z.mul_1_l. rewrite Z.mod_small; lia.
Qed.

(** C10, amended.  For an unsigned unit of [w] bits: if the normal boundary
    branch fires with a previous error [e], [0 < e <= interval], and a gap
    [g = tnow - _t0] with [interval - e <= g < interval + e], the stored
    error is [(g - interval - e) mod 2 ^ w]; provided
    [2 * interval < 2 ^ w + g - e], which holds as soon as
    [3 * interval < 2 ^ w], it exceeds the interval, and then the [update]
    that follows, whatever its sample at or after the new [_t0], returns
    true through the debt-repayment branch and resets the error to 0. *)
Theorem unsigned_boundary_underflow (w : Z) (tm : Timer) (c : Clock) :
  0 < w -> timer_in (Unsigned w) tm -> representable (Unsigned w) (peek c) ->
  running tm -> _t0 tm <= peek c ->
  0 < _terr tm <= _interval tm ->
  _interval tm - _terr tm <= peek c - _t0 tm < _interval tm + _terr tm ->
  let tm' := snd (fst (update (Unsigned w) tm c)) in
  update (Unsigned w) tm c = (true, tm', tick c)
  /\ _terr tm' = (peek c - _t0 tm - _interval tm - _terr tm) mod 2 ^ w
  /\ _t0 tm' = peek c
  /\ (2 * _interval tm < 2 ^ w + (peek c - _t0 tm) - _terr tm ->
      _interval tm' < _terr tm'
      /\ forall c2 : Clock, _t0 tm' <= peek c2 ->
           update (Unsigned w) tm' c2
           = (true,
              mkTimer (_interval tm) (peek c) (peek c2) 0 (_tstart tm)
                      (incr (Unsigned w) (incr (Unsigned w) (_frames tm)))
                      (_started tm) (_paused tm),
              tick c2))
  /\ (3 * _interval tm < 2 ^ w ->
      2 * _interval tm < 2 ^ w + (peek c - _t0 tm) - _terr tm).
Proof.
  intros Hw Hin Hnow Hrun Hge He Hgap.
  rewrite (unsigned_boundary_stored w tm c Hw Hin Hnow Hrun Hge He Hgap).
  cbn [fst snd _terr _interval _t0].
  split; [reflexivity |].
  split; [reflexivity |].
  split; [reflexivity |].
  split; [| intros Hthird; lia].
  intros Hroom.
  pose proof (unsigned_boundary_value w tm c Hw Hin Hnow Hge He Hgap Hroom)
    as Hval.
  split; [rewrite Hval; lia |].
  intros c2 Hge2.
  rewrite update_debt;
    cbn [_interval _t0 _t1 _terr _tstart _frames _started _paused];
    [reflexivity | exact Hrun | exact Hge2 | rewrite Hval; lia].
Qed.

(** The room required by [unsigned_boundary_underflow] is there for every
    [e] and [g] of its statement as soon as three intervals fit in the range
    of the unit; the stored error then exceeds the interval. *)
Lemma unsigned_boundary_room (w : Z) (tm : Timer) (c : Clock) :
  0 < w -> timer_in (Unsigned w) tm -> representable (Unsigned w) (peek c) ->
  running tm -> _t0 tm <= peek c ->
  0 < _terr tm <= _interval tm ->
  _interval tm - _terr tm <= peek c - _t0 tm < _interval tm + _terr tm ->
  3 * _interval tm < 2 ^ w ->
  2 * _interval tm < 2 ^ w + (peek c - _t0 tm) - _terr tm
  /\ _interval tm < _terr (snd (fst (update (Unsigned w) tm c))).
Proof.
  intros Hw Hin Hnow Hrun Hge He Hgap Hthird.
  assert (Hroom : 2 * _interval tm < 2 ^ w + (peek c - _t0 tm) - _terr tm)
    by lia.
  pose proof (unsigned_boundary_value w tm c Hw Hin Hnow Hge He Hgap Hroom)
    as Hval.
  split; [exact Hroom |].
  rewrite (unsigned_boundary_stored w tm c Hw Hin Hnow Hrun Hge He Hgap).
  cbn [fst snd _terr]. rewrite Hval. lia.
Qed.

Lemma unsigned_boundary_underflow_witness :
  let tm := example_timer in
  let c := clock_of [300000] 300000 in
  let tm' := snd (fst (update Uint32 tm c)) in
  update Uint32 tm c = (true, tm', tick c)
  /\ _terr tm' = (peek c - _t0 tm - _interval tm - _terr tm) mod 2 ^ 32
  /\ _t0 tm' = peek c
  /\ (2 * _interval tm < 2 ^ 32 + (peek c - _t0 tm) - _terr tm ->
      _interval tm' < _terr tm'
      /\ forall c2 : Clock, _t0 tm' <= peek c2 ->
           update Uint32 tm' c2
           = (true,
              mkTimer (_interval tm) (peek c) (peek c2) 0 (_tstart tm)
                      (incr Uint32 (incr Uint32 (_frames tm)))
                      (_started tm) (_paused tm),
              tick c2))
  /\ (3 * _interval tm < 2 ^ 32 ->
      2 * _interval tm < 2 ^ 32 + (peek c - _t0 tm) - _terr tm).
Proof.
  apply (unsigned_boundary_underflow 32 example_timer
           (clock_of [300000] 300000)).
  - reflexivity.
  - split; split; vm_compute; discriminate.
  - split; vm_compute; discriminate.
  - split; reflexivity.
  - vm_compute; discriminate.
  - split; [reflexivity | vm_compute; discriminate].
  - split; [vm_compute; discriminate | reflexivity].
Defined.

(** ** Further arithmetic at type [T] *)

(** The conversion keeps the value modulo [2 ^ w]. *)
Lemma wrap_mod (T : TimeUnit) (z : Z) :
  0 < width T -> wrap T z mod 2 ^ width T = z mod 2 ^ width T.
Proof.
  intros Hw. destruct T as [w | w]; cbn [wrap width] in *.
  - apply Z.mod_mod. pose proof (Z.pow_pos_nonneg 2 w). lia.
  - rewrite Zminus_mod_idemp_l.
    f_equal. lia.
Qed.

(** Two integers that agree modulo [2 ^ w] convert to the same value. *)
Lemma wrap_congr (T : TimeUnit) (a b : Z) :
  a mod 2 ^ width T = b mod 2 ^ width T -> wrap T a = wrap T b.
Proof.
  destruct T as [w | w]; cbn [wrap width]; intros H.
  - exact H.
  - f_equal.
    rewrite <- (Zplus_mod_idemp_l a), <- (Zplus_mod_idemp_l b), H.
    reflexivity.
Qed.

Lemma wrap_idem (T : TimeUnit) (z : Z) :
  0 < width T -> wrap T (wrap T z) = wrap T z.
Proof. intros Hw. apply wrap_id, wrap_representable; assumption. Qed.

Lemma wrap_add_l (T : TimeUnit) (a b : Z) :
  0 < width T -> wrap T (wrap T a + b) = wrap T (a + b).
Proof.
  intros Hw. apply wrap_congr.
  rewrite <- Zplus_mod_idemp_l, (wrap_mod T a Hw), Zplus_mod_idemp_l.
  reflexivity.
Qed.

Lemma wrap_add_r (T : TimeUnit) (a b : Z) :
  0 < width T -> wrap T (a + wrap T b) = wrap T (a + b).
Proof.
  intros Hw. rewrite (Z.add_comm a), (Z.add_comm a).
  apply wrap_add_l; assumption.
Qed.

Lemma wrap_sub_l (T : TimeUnit) (a b : Z) :
  0 < width T -> wrap T (wrap T a - b) = wrap T (a - b).
Proof.
  intros Hw. unfold Z.sub. apply wrap_add_l; assumption.
Qed.

(** ** [waitTime], exactly *)

(** C5, as stated, fails when the sum wraps.  A [TimerSDL] is started with
    interval 1,000 at sample 4,294,967,000; at sample 4,294,967,100 the sum
    [_t0 + _terr + _interval] is 4,294,968,000, which wraps to 704 in a
    [Uint32]: [waitTime] returns 0 where
    [max (0, (_t0 + _terr + _interval) - tnow)] is 900. *)
Lemma waitTime_sum_wraps :
  let tm := fst (session Uint32 [OpStart 1000]
                   (clock_of [4294967000; 4294967000] 4294967000)) in
  let c := clock_of [4294967100] 4294967100 in
  tm = mkTimer 1000 4294967000 4294967000 0 4294967000 0 true false
  /\ fst (waitTime Uint32 tm c) = 0
  /\ Z.max 0 ((_t0 tm + _terr tm + _interval tm) - peek c) = 900.
Proof. cbv zeta. repeat split; vm_compute; reflexivity. Qed.

(** C5, amended.  [waitTime] samples the time source once and returns
    exactly [max (0, (_t0 + _terr + _interval) - tnow)], the sum and the
    difference being those of the integers, provided the sum is within the
    range of [T] and the last subtraction does not overflow (which it
    cannot for an unsigned [T] whose samples are values of [T]); it is a
    [const] method and returns no timer: no member changes. *)
Theorem waitTime_spec (T : TimeUnit) (tm : Timer) (c : Clock) :
  0 < width T ->
  representable T (_t0 tm + _terr tm + _interval tm) ->
  (peek c <= _t0 tm + _terr tm + _interval tm ->
   _t0 tm + _terr tm + _interval tm - peek c <= tmax T) ->
  waitTime T tm c =
  (Z.max 0 (_t0 tm + _terr tm + _interval tm - peek c), tick c).
Proof.
  intros Hw Hsum Hfit.
  assert (Hdead : add T (add T (_t0 tm) (_terr tm)) (_interval tm)
                  = _t0 tm + _terr tm + _interval tm).
  { unfold add. rewrite (wrap_add_l T _ _ Hw).
    apply wrap_id; assumption. }
  rewrite waitTime_max; [| exact Hw | rewrite Hdead; exact Hfit].
  rewrite Hdead. reflexivity.
Qed.

Lemma waitTime_spec_witness :
  waitTime kernel_timer_t example_timer (clock_of [260000] 260000) =
  (Z.max 0 (250000 + 50000 + 100000 - 260000),
   tick (clock_of [260000] 260000)).
Proof.
  apply (waitTime_spec kernel_timer_t example_timer
           (clock_of [260000] 260000)).
  - reflexivity.
  - split; vm_compute; discriminate.
  - intros _; vm_compute; discriminate.
Defined.

(** ** The cases of [update] *)

(** [update] does one of five things. *)
Lemma update_cases (T : TimeUnit) (tm : Timer) (c : Clock) :
  ((_started tm = false \/ _paused tm = true)
   /\ update T tm c = (false, tm, c))
  \/ (running tm /\ peek c < _t0 tm
      /\ update T tm c =
         (false,
          mkTimer (_interval tm) (peek c) (peek c) (_terr tm) (peek c)
                  (_frames tm) (_started tm) (_paused tm),
          tick c))
  \/ (running tm /\ _t0 tm <= peek c /\ _interval tm < _terr tm
      /\ update T tm c =
         (true,
          mkTimer (_interval tm) (_t1 tm) (peek c) 0 (_tstart tm)
                  (incr T (_frames tm)) (_started tm) (_paused tm),
          tick c))
  \/ (running tm /\ _t0 tm <= peek c /\ _terr tm <= _interval tm
      /\ sub T (_interval tm) (_terr tm) <= sub T (peek c) (_t0 tm)
      /\ update T tm c =
         (true,
          mkTimer (_interval tm) (peek c) (peek c)
                  (sub T (sub T (peek c) (_t0 tm))
                         (add T (_interval tm) (_terr tm)))
                  (_tstart tm) (incr T (_frames tm))
                  (_started tm) (_paused tm),
          tick c))
  \/ (running tm /\ _t0 tm <= peek c /\ _terr tm <= _interval tm
      /\ sub T (peek c) (_t0 tm) < sub T (_interval tm) (_terr tm)
      /\ update T tm c = (false, tm, tick c)).
Proof.
  destruct (_started tm) eqn:Hs;
    [| left; split; [left; reflexivity | apply update_idle; auto]].
  destruct (_paused tm) eqn:Hp;
    [left; split; [right; reflexivity | apply update_idle; auto] |].
  assert (Hrun : running tm) by (split; assumption).
  right.
  destruct (Z_lt_le_dec (peek c) (_t0 tm)) as [Hlt | Hge].
  { left. rewrite (update_wrapped T tm c Hrun Hlt), Hs, Hp.
    repeat split; auto. }
  right.
  destruct (Z_lt_le_dec (_interval tm) (_terr tm)) as [Hdebt | Hnodebt].
  { left. rewrite (update_debt T tm c Hrun Hge Hdebt), Hs, Hp.
    repeat split; auto. }
  right.
  destruct (Z_le_gt_dec (sub T (_interval tm) (_terr tm))
                        (sub T (peek c) (_t0 tm))) as [Hfire | Hwait].
  - left. rewrite (update_boundary T tm c Hrun Hge Hnodebt Hfire), Hs, Hp.
    repeat split; auto.
  - right. rewrite (update_waiting T tm c Hrun Hge Hnodebt) by lia.
    repeat split; auto; lia.
Qed.

(** ** Stopped and paused timers *)

(** X1.  A timer that is stopped or paused is inert: however often it is
    polled, [update] returns false, the time functor is not called and no
    member changes. *)
Theorem idle_polls_inert (T : TimeUnit) (n : nat) (tm : Timer) (c : Clock) :
  _started tm = false \/ _paused tm = true ->
  polls T n tm c = (repeat (false, getFrames tm) n, tm, c).
Proof.
  intros Hidle.
  induction n as [| n IH]; [reflexivity |].
  cbn [polls repeat]. unfold bind at 1.
  rewrite (update_idle T tm c Hidle). cbn [fst snd].
  unfold bind at 1. rewrite IH. reflexivity.
Qed.

Lemma idle_polls_inert_witness :
  polls kernel_timer_t 3 (pause example_timer) (clock_of [300000] 300000)
  = (repeat (false, getFrames (pause example_timer)) 3,
     pause example_timer, clock_of [300000] 300000).
Proof.
  apply (idle_polls_inert kernel_timer_t 3 (pause example_timer)
           (clock_of [300000] 300000)).
  right; reflexivity.
Defined.

(** ** What [update] leaves alone *)

(** The members and the clock after [update], case by case. *)
Lemma update_configuration (T : TimeUnit) (tm : Timer)
    (c : Clock) :
  let r := update T tm c in
  let tm' := snd (fst r) in
  _interval tm' = _interval tm
  /\ _started tm' = _started tm
  /\ _paused tm' = _paused tm
  /\ snd r = (if _started tm && negb (_paused tm) then tick c else c)
  /\ (fst (fst r) = false ->
      _terr tm' = _terr tm /\ _frames tm' = _frames tm)
  /\ (fst (fst r) = false ->
      _started tm && negb (_paused tm) = false \/ _t0 tm <= peek c ->
      tm' = tm).
Proof.
  cbv zeta.
  destruct (update_cases T tm c)
    as [[Hidle Hup] | [(Hrun & Hlt & Hup) | [(Hrun & Hge & Hdebt & Hup)
       | [(Hrun & Hge & Hle & Hfire & Hup)
         | (Hrun & Hge & Hle & Hwait & Hup)]]]];
    rewrite Hup; cbn [fst snd _interval _started _paused _terr _frames].
  - repeat split; auto.
    destruct Hidle as [-> | ->]; [reflexivity |].
    rewrite andb_false_r; reflexivity.
  - destruct Hrun as [Hs Hp]. rewrite Hs, Hp. cbn [andb negb].
    repeat split; auto.
    intros _ [Hno | Hge]; [discriminate | lia].
  - destruct Hrun as [Hs Hp]. rewrite Hs, Hp. cbn [andb negb].
    repeat split; auto; discriminate.
  - destruct Hrun as [Hs Hp]. rewrite Hs, Hp. cbn [andb negb].
    repeat split; auto; discriminate.
  - destruct Hrun as [Hs Hp]. rewrite Hs, Hp. cbn [andb negb].
    repeat split; auto.
Qed.

(** X2.  [update] never changes the interval or the started and paused
    flags; it calls the time functor exactly once when the timer is started
    and not paused, and not at all otherwise.  A call that returns false
    leaves the error accumulator and the frame count as they were, and
    leaves the whole timer as it was unless it saw a sample below [_t0]. *)
Theorem update_preserves_configuration (T : TimeUnit) (tm : Timer)
    (c : Clock) :
  let r := update T tm c in
  let tm' := snd (fst r) in
  _interval tm' = _interval tm
  /\ _started tm' = _started tm
  /\ _paused tm' = _paused tm
  /\ snd r = (if _started tm && negb (_paused tm) then tick c else c)
  /\ (fst (fst r) = false ->
      _terr tm' = _terr tm /\ _frames tm' = _frames tm)
  /\ (fst (fst r) = false ->
      _started tm && negb (_paused tm) = false \/ _t0 tm <= peek c ->
      tm' = tm).
Proof. exact (update_configuration T tm c). Qed.

(** ** Invariants of a timer's life *)

(** What [reset] does. *)
Lemma reset_eq (tm : Timer) (c : Clock) :
  reset tm c
  = (mkTimer (_interval tm) (peek c) (peek c) 0 (peek c) 0
             (_started tm) (_paused tm),
     tick c).
Proof. reflexivity. Qed.

(** What [resume] does. *)
Lemma resume_eq (T : TimeUnit) (tm : Timer) (c : Clock) :
  resume T tm c
  = if _paused tm
    then (mkTimer (_interval tm) (peek c)
                  (add T (peek c) (sub T (_t1 tm) (_t0 tm)))
                  (_terr tm) (_tstart tm) (_frames tm) (_started tm) false,
          tick c)
    else (tm, c).
Proof.
  unfold resume, paused. destruct (_paused tm); reflexivity.
Qed.

(** What [start] does: [reset] takes a sample, and [resume] a second one
    when the timer was paused. *)
Lemma start_eq (T : TimeUnit) (interval : Z) (tm : Timer) (c : Clock) :
  start T interval tm c
  = if _paused tm
    then (mkTimer interval (peek (tick c))
                  (add T (peek (tick c)) (sub T (peek c) (peek c)))
                  0 (peek c) 0 true false,
          tick (tick c))
    else (mkTimer interval (peek c) (peek c) 0 (peek c) 0 true false,
          tick c).
Proof.
  unfold start, bind. rewrite reset_eq.
  rewrite resume_eq.
  cbn [_paused set_interval _interval _t0 _t1 _terr _tstart _frames
       _started].
  destruct (_paused tm); reflexivity.
Qed.

(** One call in front of a sequence. *)
Lemma run_cons (T : TimeUnit) (o : Op) (ops : list Op) (tm : Timer)
    (c : Clock) :
  run T (o :: ops) tm c
  = run T ops (fst (step T o tm c)) (snd (step T o tm c)).
Proof.
  cbn [run]. unfold bind. destruct (step T o tm c); reflexivity.
Qed.

(** The flag and the interval after one call. *)
Lemma step_started_or_no_interval (T : TimeUnit) (o : Op) (tm : Timer)
    (c : Clock) :
  _started tm = true \/ _interval tm = 0 ->
  _started (fst (step T o tm c)) = true
  \/ _interval (fst (step T o tm c)) = 0.
Proof.
  intros Hinv.
  destruct o; cbn [step]; unfold ret, bind; cbn [fst].
  - rewrite start_eq. destruct (_paused tm); left; reflexivity.
  - right; reflexivity.
  - exact Hinv.
  - rewrite resume_eq. destruct (_paused tm); exact Hinv.
  - pose proof (update_configuration T tm c)
      as (Hi & Hs & _).
    destruct (update T tm c) as [[b tm'] c']. cbn [fst snd] in *.
    rewrite Hi, Hs. exact Hinv.
  - exact Hinv.
  - unfold waitTime, bind, timeFunc, ret.
    destruct (peek c >? _); exact Hinv.
Qed.

(** X3.  Whatever the sequence of calls made on a timer since its
    construction, and whatever the time functor returns, the interval is 0
    whenever the timer is not started. *)
Theorem stopped_timer_has_no_interval (T : TimeUnit) (ops : list Op)
    (c : Clock) :
  _started (fst (session T ops c)) = true
  \/ _interval (fst (session T ops c)) = 0.
Proof.
  unfold session, bind.
  destruct (new_Timer c) as [tm0 c0] eqn:Hnew.
  assert (H0 : _started tm0 = true \/ _interval tm0 = 0).
  { right. unfold new_Timer, _init, bind in Hnew. rewrite reset_eq in Hnew.
    inversion Hnew; reflexivity. }
  clear Hnew. revert tm0 c0 H0.
  induction ops as [| o ops IH]; intros tm0 c0 H0.
  - exact H0.
  - rewrite run_cons. apply IH.
    apply step_started_or_no_interval; exact H0.
Qed.

(** ** [start] and [resume] *)

(** X5.  [start] assigns the interval, clears the error accumulator and the
    frame count, and leaves the timer started and not paused.  On a timer
    that is not paused it calls the time functor once and the three time
    bases are that sample.  On a paused timer it calls it twice: [_tstart]
    is the first sample, [_t0] and [_t1] are the second, so that
    [elapsed ()] is their difference and not 0. *)
Theorem start_samples (T : TimeUnit) (interval : Z) (tm : Timer)
    (c : Clock) :
  0 < width T -> clock_in T c ->
  let s1 := source c (reads c) in
  let s2 := source c (S (reads c)) in
  start T interval tm c
  = if _paused tm
    then (mkTimer interval s2 s2 0 s1 0 true false,
          mkClock (source c) (S (S (reads c))))
    else (mkTimer interval s1 s1 0 s1 0 true false,
          mkClock (source c) (S (reads c))).
Proof.
  intros Hw Hc s1 s2.
  rewrite start_eq. destruct (_paused tm); [| reflexivity].
  rewrite (sub_diag T _ Hw).
  unfold add. rewrite Z.add_0_r.
  rewrite (wrap_id T (peek (tick c)) Hw) by apply Hc.
  reflexivity.
Qed.

Lemma start_samples_witness :
  start kernel_timer_t 100000 (pause example_timer)
        (clock_of [400000; 400007] 400007)
  = if _paused (pause example_timer)
    then (mkTimer 100000 400007 400007 0 400000 0 true false,
          mkClock (source (clock_of [400000; 400007] 400007)) 2)
    else (mkTimer 100000 400000 400000 0 400000 0 true false,
          mkClock (source (clock_of [400000; 400007] 400007)) 1).
Proof.
  apply (start_samples kernel_timer_t 100000 (pause example_timer)
           (clock_of [400000; 400007] 400007)).
  - reflexivity.
  - intros n. unfold clock_of; cbn [source].
    do 2 (destruct n as [| n]; [split; vm_compute; discriminate |]).
    destruct n; split; vm_compute; discriminate.
Defined.

(** X6.  [resume] on a paused timer calls the time functor once, moves
    [_t0] to the sample and keeps the gap [_t1 - _t0] as it was, at type
    [T]; it clears the paused flag and changes nothing else.  On a timer
    that is not paused it does nothing and does not call the time
    functor. *)
Theorem resume_keeps_gap (T : TimeUnit) (tm : Timer) (c : Clock) :
  0 < width T ->
  let tm' := fst (resume T tm c) in
  (_paused tm = false -> resume T tm c = (tm, c))
  /\ (_paused tm = true ->
      snd (resume T tm c) = tick c
      /\ _t0 tm' = peek c
      /\ sub T (_t1 tm') (_t0 tm') = sub T (_t1 tm) (_t0 tm)
      /\ _paused tm' = false
      /\ (_interval tm', _terr tm', _tstart tm', _frames tm', _started tm')
         = (_interval tm, _terr tm, _tstart tm, _frames tm, _started tm)).
Proof.
  intros Hw. cbv zeta. rewrite resume_eq.
  split; intros Hp; rewrite Hp; [reflexivity |].
  cbn [fst snd _t0 _t1 _paused _interval _terr _tstart _frames _started].
  repeat split.
  unfold sub at 1. unfold add.
  rewrite (wrap_sub_l T _ _ Hw).
  replace (peek c + sub T (_t1 tm) (_t0 tm) - peek c)
    with (sub T (_t1 tm) (_t0 tm)) by lia.
  unfold sub. apply wrap_idem; exact Hw.
Qed.

Lemma resume_keeps_gap_witness :
  let tm := mkTimer 100 4294967000 4294967200 0 0 7 true true in
  let c := clock_of [4294967290] 0 in
  let tm' := fst (resume Uint32 tm c) in
  (_paused tm = false -> resume Uint32 tm c = (tm, c))
  /\ (_paused tm = true ->
      snd (resume Uint32 tm c) = tick c
      /\ _t0 tm' = peek c
      /\ sub Uint32 (_t1 tm') (_t0 tm') = sub Uint32 (_t1 tm) (_t0 tm)
      /\ _paused tm' = false
      /\ (_interval tm', _terr tm', _tstart tm', _frames tm', _started tm')
         = (_interval tm, _terr tm, _tstart tm, _frames tm, _started tm)).
Proof.
  apply (resume_keeps_gap Uint32
           (mkTimer 100 4294967000 4294967200 0 0 7 true true)
           (clock_of [4294967290] 0)).
  reflexivity.
Defined.

(** X7.  [elapsed ()] counts the time spent paused: after [resume] on a
    paused timer it has grown by the distance from the old [_t0] to the
    sample taken by [resume], provided that sum is a value of [T]. *)
Theorem resume_elapsed_includes_pause (T : TimeUnit) (tm : Timer)
    (c : Clock) :
  0 < width T -> _paused tm = true ->
  representable T (elapsed T tm + (peek c - _t0 tm)) ->
  elapsed T (fst (resume T tm c)) = elapsed T tm + (peek c - _t0 tm).
Proof.
  intros Hw Hp Hrep.
  rewrite <- (wrap_id T _ Hw Hrep).
  rewrite resume_eq, Hp. unfold elapsed, sub, add. cbn [fst _t1 _tstart].
  rewrite (wrap_sub_l T _ _ Hw), (wrap_add_l T _ _ Hw).
  replace (peek c + wrap T (_t1 tm - _t0 tm) - _tstart tm)
    with (wrap T (_t1 tm - _t0 tm) + (peek c - _tstart tm)) by lia.
  rewrite (wrap_add_l T _ _ Hw).
  f_equal. lia.
Qed.

Lemma resume_elapsed_includes_pause_witness :
  elapsed kernel_timer_t
    (fst (resume kernel_timer_t (pause example_timer)
            (clock_of [900000] 900000)))
  = elapsed kernel_timer_t (pause example_timer) + (900000 - 250000).
Proof.
  apply (resume_elapsed_includes_pause kernel_timer_t
           (pause example_timer) (clock_of [900000] 900000)).
  - reflexivity.
  - reflexivity.
  - split; vm_compute; discriminate.
Defined.

(** ** What a caller sees after an elapsed event *)

(** X8.  Whenever [update] returns true, [getTicks ()] is the sample just
    read, [elapsed ()] is the distance from [_tstart] to that sample and
    [getFrames ()] is one more than before, all at type [T]. *)
Theorem update_true_observers (T : TimeUnit) (tm tm' : Timer)
    (c c' : Clock) :
  update T tm c = (true, tm', c') ->
  getTicks tm' = peek c
  /\ elapsed T tm' = sub T (peek c) (_tstart tm)
  /\ getFrames tm' = incr T (getFrames tm).
Proof.
  intros Hup.
  destruct (update_true_inv T tm tm' c c' Hup)
    as (_ & _ & _ & [[_ ->] | (_ & _ & ->)]);
    repeat split; reflexivity.
Qed.

Lemma update_true_observers_witness :
  let tm' := mkTimer 100000 300000 300000 (-100000) 0 3 true false in
  getTicks tm' = peek (clock_of [300000] 300000)
  /\ elapsed kernel_timer_t tm'
     = sub kernel_timer_t (peek (clock_of [300000] 300000))
           (_tstart example_timer)
  /\ getFrames tm' = incr kernel_timer_t (getFrames example_timer).
Proof.
  apply (update_true_observers kernel_timer_t example_timer
           (mkTimer 100000 300000 300000 (-100000) 0 3 true false)
           (clock_of [300000] 300000)
           (tick (clock_of [300000] 300000))).
  vm_compute; reflexivity.
Defined.

(** ** [waitTime] and [update] together *)

(** The deadline of [waitTime] when its sum does not overflow. *)
Lemma deadline_exact (T : TimeUnit) (tm : Timer) :
  0 < width T -> timer_in T tm ->
  0 <= _t0 tm -> 0 <= _terr tm ->
  tmin T <= _t0 tm + _terr tm + _interval tm <= tmax T ->
  _t0 tm + _terr tm <= tmax T ->
  add T (add T (_t0 tm) (_terr tm)) (_interval tm)
  = _t0 tm + _terr tm + _interval tm.
Proof.
  intros Hw Hin H0 He Hsum Hpart.
  pose proof (tmin_le_0 T Hw).
  rewrite (add_exact T (_t0 tm) (_terr tm) Hw)
    by (unfold representable; lia).
  apply add_exact; [exact Hw | exact Hsum].
Qed.

(** X9.  While no error is accumulated, [waitTime] and [update] agree: with
    the same sample, not below [_t0], [update] returns true exactly when
    [waitTime] returns 0.  The time bases are taken non-negative and
    [_t0 + _interval] within the range of [T]. *)
Theorem waitTime_zero_iff_update_fires (T : TimeUnit) (tm : Timer)
    (c : Clock) :
  0 < width T -> timer_in T tm -> representable T (peek c) ->
  running tm -> _terr tm = 0 ->
  0 <= _t0 tm <= peek c -> _t0 tm + _interval tm <= tmax T ->
  fst (fst (update T tm c)) = true <-> fst (waitTime T tm c) = 0.
Proof.
  intros Hw Hin Hnow Hrun He Ht0 Hfit.
  pose proof (tmin_le_0 T Hw) as Hmin.
  destruct Hin as [Hi H0 _ _ _ _].
  unfold representable in Hi, H0, Hnow.
  assert (Hdead : add T (add T (_t0 tm) (_terr tm)) (_interval tm)
                  = _t0 tm + _interval tm).
  { rewrite He. unfold add. rewrite Z.add_0_r.
    rewrite (wrap_id T (_t0 tm) Hw) by (unfold representable; lia).
    apply wrap_id; [exact Hw | unfold representable; lia]. }
  rewrite waitTime_max; [| exact Hw | rewrite Hdead; lia].
  rewrite Hdead. cbn [fst].
  destruct (Z_lt_le_dec (_interval tm) (_terr tm)) as [Hdebt | Hnodebt].
  - rewrite (update_debt T tm c Hrun) by lia. cbn [fst].
    split; [intros _; lia | reflexivity].
  - assert (Hthr : sub T (_interval tm) (_terr tm) = _interval tm).
    { rewrite He. unfold sub. rewrite Z.sub_0_r.
      apply wrap_id; [exact Hw | unfold representable; lia]. }
    assert (Hgap : sub T (peek c) (_t0 tm) = peek c - _t0 tm).
    { apply sub_exact; [exact Hw | unfold representable; lia]. }
    destruct (Z_le_gt_dec (_interval tm) (peek c - _t0 tm))
      as [Hfire | Hwait].
    + rewrite (update_boundary T tm c Hrun) by lia. cbn [fst].
      split; [intros _; lia | reflexivity].
    + rewrite (update_waiting T tm c Hrun) by lia. cbn [fst].
      split; [discriminate | lia].
Qed.

Lemma waitTime_zero_iff_update_fires_witness :
  let tm := mkTimer 100000 0 0 0 0 0 true false in
  let c := clock_of [100000] 100000 in
  fst (fst (update kernel_timer_t tm c)) = true
  <-> fst (waitTime kernel_timer_t tm c) = 0.
Proof.
  apply (waitTime_zero_iff_update_fires kernel_timer_t
           (mkTimer 100000 0 0 0 0 0 true false)
           (clock_of [100000] 100000)).
  - reflexivity.
  - split; split; vm_compute; discriminate.
  - split; vm_compute; discriminate.
  - split; reflexivity.
  - reflexivity.
  - split; vm_compute; discriminate.
  - vm_compute; discriminate.
Defined.

(** X10.  Sleeping for [waitTime ()] is enough: when the error accumulator
    and the interval are not negative and the deadline
    [_t0 + _terr + _interval] is within the range of [T], an [update] whose
    sample is at least the sample of [waitTime] plus the wait it returned
    returns true. *)
Theorem update_fires_after_wait (T : TimeUnit) (tm : Timer)
    (c c' : Clock) :
  0 < width T -> timer_in T tm ->
  representable T (peek c) -> representable T (peek c') ->
  running tm -> 0 <= _interval tm -> 0 <= _terr tm ->
  0 <= _t0 tm <= peek c ->
  _t0 tm + _terr tm + _interval tm <= tmax T ->
  peek c + fst (waitTime T tm c) <= peek c' ->
  fst (fst (update T tm c')) = true.
Proof.
  intros Hw Hin Hnow Hnow' Hrun Hi0 He0 Ht0 Hfit Hslept.
  pose proof (tmin_le_0 T Hw) as Hmin.
  pose proof (deadline_exact T tm Hw Hin) as Hdead.
  destruct Hin as [Hi H0 _ He _ _].
  unfold representable in Hi, H0, He, Hnow, Hnow'.
  rewrite waitTime_max in Hslept; [| exact Hw | rewrite Hdead; lia].
  rewrite Hdead in Hslept by lia. cbn [fst] in Hslept.
  assert (Hpast : _t0 tm + _terr tm + _interval tm <= peek c') by lia.
  destruct (Z_lt_le_dec (_interval tm) (_terr tm)) as [Hdebt | Hnodebt].
  - rewrite (update_debt T tm c' Hrun) by lia. reflexivity.
  - assert (Hthr : sub T (_interval tm) (_terr tm)
                   = _interval tm - _terr tm).
    { apply sub_exact; [exact Hw | unfold representable; lia]. }
    assert (Hgap : sub T (peek c') (_t0 tm) = peek c' - _t0 tm).
    { apply sub_exact; [exact Hw | unfold representable; lia]. }
    rewrite (update_boundary T tm c' Hrun) by lia. reflexivity.
Qed.

Lemma update_fires_after_wait_witness :
  fst (fst (update kernel_timer_t example_timer
              (clock_of [400000] 400000))) = true.
Proof.
  apply (update_fires_after_wait kernel_timer_t example_timer
           (clock_of [260000] 260000) (clock_of [400000] 400000)).
  - reflexivity.
  - split; split; vm_compute; discriminate.
  - split; vm_compute; discriminate.
  - split; vm_compute; discriminate.
  - split; reflexivity.
  - vm_compute; discriminate.
  - vm_compute; discriminate.
  - split; vm_compute; discriminate.
  - vm_compute; discriminate.
  - vm_compute; discriminate.
Defined.

(** ** Compensation of a late poll *)

(** X11.  A late poll is made up for at the next interval.  When no error
    is accumulated and [update] is polled [o] late, [0 <= o <= _interval],
    that is at [_t0 + _interval + o], it returns true and stores [o] as the
    error; the [update] after it returns true exactly when its sample has
    reached [_t0 + 2 * _interval], the boundary of the original
    schedule. *)
Theorem late_poll_compensated (T : TimeUnit) (tm : Timer) (o : Z)
    (c c2 : Clock) :
  0 < width T -> timer_in T tm ->
  representable T (peek c) -> representable T (peek c2) ->
  running tm -> _terr tm = 0 -> 0 <= _t0 tm ->
  0 <= o <= _interval tm ->
  peek c = _t0 tm + _interval tm + o -> peek c <= peek c2 ->
  let r := update T tm c in
  fst (fst r) = true
  /\ _terr (snd (fst r)) = o
  /\ (fst (fst (update T (snd (fst r)) c2)) = true
      <-> _t0 tm + 2 * _interval tm <= peek c2).
Proof.
  intros Hw Hin Hnow Hnow2 Hrun He H0 Ho Hs Hs2.
  pose proof (tmin_le_0 T Hw) as Hmin.
  destruct Hin as [Hi Ht0 _ _ _ _].
  unfold representable in Hi, Ht0, Hnow, Hnow2.
  assert (Hex : forall z, 0 <= z <= peek c2 -> wrap T z = z).
  { intros z Hz. apply wrap_id; [exact Hw | unfold representable; lia]. }
  assert (Hthr : sub T (_interval tm) (_terr tm) = _interval tm).
  { rewrite He. unfold sub. rewrite Z.sub_0_r. apply Hex; lia. }
  assert (Hgap : sub T (peek c) (_t0 tm) = _interval tm + o).
  { unfold sub. rewrite Hex; lia. }
  cbv zeta.
  rewrite (update_boundary T tm c Hrun) by lia.
  cbn [fst snd _terr].
  assert (Herr : sub T (sub T (peek c) (_t0 tm))
                       (add T (_interval tm) (_terr tm)) = o).
  { rewrite Hgap, He. unfold add, sub.
    rewrite Z.add_0_r, (Hex (_interval tm)) by lia.
    rewrite Hex; lia. }
  rewrite Herr.
  split; [reflexivity |]. split; [reflexivity |].
  set (tm1 := mkTimer _ _ _ _ _ _ _ _).
  assert (Hrun1 : running tm1) by exact Hrun.
  assert (Hthr1 : sub T (_interval tm1) (_terr tm1) = _interval tm - o).
  { cbn [tm1 _interval _terr]. unfold sub. apply Hex; lia. }
  assert (Hgap1 : sub T (peek c2) (_t0 tm1) = peek c2 - peek c).
  { cbn [tm1 _t0]. unfold sub. apply Hex; lia. }
  destruct (Z_le_gt_dec (_t0 tm + 2 * _interval tm) (peek c2))
    as [Hfire | Hwait].
  - rewrite (update_boundary T tm1 c2 Hrun1);
      cbn [tm1 _interval _terr _t0] in *; try lia.
    cbn [fst]. split; [intros _; exact Hfire | reflexivity].
  - rewrite (update_waiting T tm1 c2 Hrun1);
      cbn [tm1 _interval _terr _t0] in *; try lia.
    cbn [fst]. split; [discriminate | lia].
Qed.

Lemma late_poll_compensated_witness :
  let tm := mkTimer 100000 0 0 0 0 0 true false in
  let r := update kernel_timer_t tm (clock_of [130000] 130000) in
  fst (fst r) = true
  /\ _terr (snd (fst r)) = 30000
  /\ (fst (fst (update kernel_timer_t (snd (fst r))
                  (clock_of [200000] 200000))) = true
      <-> _t0 tm + 2 * _interval tm <= peek (clock_of [200000] 200000)).
Proof.
  apply (late_poll_compensated kernel_timer_t
           (mkTimer 100000 0 0 0 0 0 true false) 30000
           (clock_of [130000] 130000) (clock_of [200000] 200000)).
  - reflexivity.
  - split; split; vm_compute; discriminate.
  - split; vm_compute; discriminate.
  - split; vm_compute; discriminate.
  - split; reflexivity.
  - reflexivity.
  - vm_compute; discriminate.
  - split; vm_compute; discriminate.
  - reflexivity.
  - vm_compute; discriminate.
Defined.

(** ** Polling on a regular grid *)

Lemma grid_obs_S (k f r : Z) (n : nat) :
  grid_obs k f r (S n)
  = ((r + 1) mod k =? 0, f + (r + 1) / k) :: grid_obs k f (r + 1) n.
Proof.
  unfold grid_obs. cbn [seq map].
  rewrite <- seq_shift, map_map.
  f_equal.
  - cbn [Z.of_nat]. rewrite Z.add_0_r. reflexivity.
  - apply map_ext. intros j. rewrite Nat2Z.inj_succ.
    replace (r + Z.succ (Z.of_nat j) + 1) with (r + 1 + Z.of_nat j + 1)
      by lia.
    reflexivity.
Qed.

Lemma grid_obs_window (k f : Z) (n : nat) :
  0 < k -> grid_obs k f k n = grid_obs k (f + 1) 0 n.
Proof.
  intros Hk. unfold grid_obs. apply map_ext. intros j.
  replace (k + Z.of_nat j + 1) with (0 + Z.of_nat j + 1 + 1 * k) by lia.
  rewrite Z_mod_plus_full, Z_div_plus_full by lia.
  f_equal. lia.
Qed.

(** Polling on a grid, from any phase [r] of the window. *)
Lemma grid_polls (T : TimeUnit) (k d : Z) (n : nat) :
  0 < width T -> 0 < d -> 0 < k -> representable T (k * d) ->
  forall (a r f t1 ts : Z) (c : Clock),
    0 <= r < k -> 0 <= a -> 0 <= f ->
    a + d * (r + Z.of_nat n) <= tmax T ->
    f + Z.of_nat n <= tmax T ->
    (forall j, (j < n)%nat ->
               source c (reads c + j) = a + d * (r + Z.of_nat j + 1)) ->
    fst (fst (polls T n (mkTimer (k * d) a t1 0 ts f true false) c))
    = grid_obs k f r n
    /\ _terr (snd (fst (polls T n (mkTimer (k * d) a t1 0 ts f true false)
                          c))) = 0.
Proof.
  intros Hw Hd Hk Hrep.
  pose proof (tmin_le_0 T Hw) as Hmin.
  induction n as [| n IH]; intros a r f t1 ts c Hr Ha Hf Hfit Hfr Hsrc.
  - split; reflexivity.
  - rewrite polls_S, grid_obs_S.
    set (tm := mkTimer (k * d) a t1 0 ts f true false).
    assert (Hrun : running tm) by (split; reflexivity).
    assert (Hpeek : peek c = a + d * (r + 1)).
    { unfold peek. rewrite <- (Nat.add_0_r (reads c)).
      rewrite (Hsrc 0%nat) by lia. cbn [Z.of_nat]. f_equal. lia. }
    assert (Hsteps : 0 < d * (r + 1) <= d * (r + Z.of_nat (S n))) by nia.
    assert (Hthr : sub T (_interval tm) (_terr tm) = k * d).
    { cbn [tm _interval _terr]. unfold sub. rewrite Z.sub_0_r.
      apply wrap_id; assumption. }
    assert (Hgap : sub T (peek c) (_t0 tm) = d * (r + 1)).
    { cbn [tm _t0]. rewrite Hpeek. unfold sub.
      replace (a + d * (r + 1) - a) with (d * (r + 1)) by lia.
      apply wrap_id; [exact Hw | unfold representable; lia]. }
    assert (Hnext : forall j, (j < n)%nat ->
              source (tick c) (reads (tick c) + j)
              = a + d * (r + 1 + Z.of_nat j + 1)).
    { intros j Hj. cbn [tick source reads].
      replace (S (reads c) + j)%nat with (reads c + S j)%nat by lia.
      rewrite (Hsrc (S j)) by lia. rewrite Nat2Z.inj_succ. f_equal. lia. }
    destruct (Z.eq_dec (r + 1) k) as [Hlast | Hmid].
    + assert (Hup : update T tm c
                    = (true,
                       mkTimer (k * d) (a + d * k) (a + d * k) 0 ts (f + 1)
                               true false,
                       tick c)).
      { rewrite (update_boundary T tm c Hrun);
          [| cbn [tm _t0]; lia | cbn [tm _terr _interval]; nia
           | rewrite Hthr, Hgap; nia].
        rewrite Hgap. cbn [tm _interval _terr _tstart _frames _started
                           _paused].
        rewrite Hpeek, Hlast.
        unfold add. rewrite Z.add_0_r, (wrap_id T (k * d) Hw Hrep).
        replace (d * k) with (k * d) by lia. rewrite (sub_diag T _ Hw).
        rewrite (incr_exact T f Hw) by (unfold representable; lia).
        reflexivity. }
      rewrite Hup. cbn [fst snd getFrames _frames].
      rewrite Hlast, Z_mod_same_full, Z_div_same_full by lia.
      rewrite grid_obs_window by exact Hk.
      destruct (IH (a + d * k) 0 (f + 1) (a + d * k) ts (tick c))
        as [Hobs Herr]; try lia.
      { intros j Hj. rewrite (Hnext j Hj). rewrite Hlast. lia. }
      rewrite Hobs, Herr. split; reflexivity.
    + assert (Hup : update T tm c = (false, tm, tick c)).
      { apply (update_waiting T tm c Hrun);
          [cbn [tm _t0]; lia | cbn [tm _terr _interval]; nia
          | rewrite Hthr, Hgap; nia]. }
      rewrite Hup. cbn [fst snd getFrames].
      rewrite Z.mod_small, Z.div_small by lia.
      cbn [tm _frames]. rewrite Z.add_0_r.
      destruct (IH a (r + 1) f t1 ts (tick c)) as [Hobs Herr]; try lia.
      { exact Hnext. }
      fold tm in Hobs, Herr. rewrite Hobs, Herr.
      replace (r + 1 =? 0) with false by (symmetry; apply Z.eqb_neq; lia).
      split; reflexivity.
Qed.

(** X12.  On a regular grid the timer neither drifts nor skips.  A running
    timer with no accumulated error is polled at [_t0 + d], [_t0 + 2 * d],
    ... and its interval is [k] steps [d]: poll number [j] (from 1) returns
    true exactly when [k] divides [j], the frame count after it is the
    count before the first poll plus [j / k], and the error accumulator is
    0 after the last poll.  The samples and the frame count are taken
    within the range of [T]. *)
Theorem polls_on_grid (T : TimeUnit) (k d : Z) (n : nat) (tm : Timer)
    (c : Clock) :
  0 < width T -> running tm -> _terr tm = 0 ->
  0 < d -> 0 < k -> _interval tm = k * d -> representable T (k * d) ->
  0 <= _t0 tm -> 0 <= _frames tm ->
  _t0 tm + d * Z.of_nat n <= tmax T ->
  _frames tm + Z.of_nat n <= tmax T ->
  (forall j, (j < n)%nat ->
             source c (reads c + j) = _t0 tm + d * (Z.of_nat j + 1)) ->
  fst (fst (polls T n tm c))
  = map (fun j : nat =>
           ((Z.of_nat j + 1) mod k =? 0,
            _frames tm + (Z.of_nat j + 1) / k))
        (seq 0 n)
  /\ _terr (snd (fst (polls T n tm c))) = 0.
Proof.
  intros Hw [Hs Hp] He Hd Hk Hi Hrep H0 Hf Hfit Hfr Hsrc.
  destruct tm as [i t0 t1 e ts f s p].
  cbn [_interval _t0 _t1 _terr _tstart _frames _started _paused] in *.
  subst i e s p.
  exact (grid_polls T k d n Hw Hd Hk Hrep t0 0 f t1 ts c
           ltac:(lia) H0 Hf ltac:(lia) Hfr Hsrc).
Qed.

Lemma polls_on_grid_witness :
  let tm := mkTimer 30 1000 1000 0 1000 0 true false in
  let c := clock_of [1010; 1020; 1030; 1040; 1050; 1060] 1070 in
  fst (fst (polls Uint32 6 tm c))
  = map (fun j : nat =>
           ((Z.of_nat j + 1) mod 3 =? 0,
            _frames tm + (Z.of_nat j + 1) / 3))
        (seq 0 6)
  /\ _terr (snd (fst (polls Uint32 6 tm c))) = 0.
Proof.
  apply (polls_on_grid Uint32 3 10 6
           (mkTimer 30 1000 1000 0 1000 0 true false)
           (clock_of [1010; 1020; 1030; 1040; 1050; 1060] 1070)).
  - reflexivity.
  - split; reflexivity.
  - reflexivity.
  - reflexivity.
  - reflexivity.
  - reflexivity.
  - split; vm_compute; discriminate.
  - vm_compute; discriminate.
  - vm_compute; discriminate.
  - vm_compute; discriminate.
  - vm_compute; discriminate.
  - intros j Hj. unfold clock_of; cbn [source reads _t0].
    do 6 (destruct j as [| j]; [reflexivity |]). lia.
Defined.

(** ** [KernelTimer] *)

Lemma kernel_representable (z : Z) :
  representable kernel_timer_t z
  <-> - 9223372036854775808 <= z <= 9223372036854775807.
Proof.
  unfold representable, kernel_timer_t, tmin, tmax.
  change (2 ^ (64 - 1)) with 9223372036854775808. lia.
Qed.

Lemma kernel_width : 0 < width kernel_timer_t.
Proof. reflexivity. Qed.

(** The value of the time functor when it does not overflow. *)
Lemma KernelTimerCallback_exact (tv : timeval) :
  timeval_ok tv ->
  representable kernel_timer_t (1000000 * tv_sec tv + tv_usec tv) ->
  KernelTimerCallback tv = 1000000 * tv_sec tv + tv_usec tv.
Proof.
  intros [Hsec Husec] Hrep.
  unfold KernelTimerCallback, add, mul, KernelTimer_SECOND.
  rewrite (wrap_id kernel_timer_t (1000000 * tv_sec tv) kernel_width).
  - apply wrap_id; [exact kernel_width | exact Hrep].
  - apply (proj1 (kernel_representable _)) in Hrep.
    apply (proj2 (kernel_representable _)). lia.
Qed.

(** X13.  The time functor of [KernelTimer] packs the seconds and the
    microseconds of [gettimeofday] without loss as long as the result fits
    in a [long long]: its value is [1000000 * tv_sec + tv_usec], and the
    division and the remainder by [SECOND] that [sleepyTime] uses give the
    two members back. *)
Theorem KernelTimerCallback_round_trip (tv : timeval) :
  timeval_ok tv ->
  representable kernel_timer_t (1000000 * tv_sec tv + tv_usec tv) ->
  KernelTimerCallback tv = 1000000 * tv_sec tv + tv_usec tv
  /\ Z.quot (KernelTimerCallback tv) KernelTimer_SECOND = tv_sec tv
  /\ Z.rem (KernelTimerCallback tv) KernelTimer_SECOND = tv_usec tv.
Proof.
  intros Hok Hrep.
  rewrite (KernelTimerCallback_exact tv Hok Hrep).
  destruct Hok as [Hsec Husec]. unfold KernelTimer_SECOND.
  split; [reflexivity |].
  rewrite Z.quot_div_nonneg, Z.rem_mod_nonneg by lia.
  split.
  - symmetry. apply (Z.div_unique_pos _ _ _ (tv_usec tv)); lia.
  - symmetry. apply (Z.mod_unique_pos _ _ (tv_sec tv)); lia.
Qed.

Lemma KernelTimerCallback_round_trip_witness :
  let tv := mkTimeval 1793361600 250000 in
  KernelTimerCallback tv = 1000000 * tv_sec tv + tv_usec tv
  /\ Z.quot (KernelTimerCallback tv) KernelTimer_SECOND = tv_sec tv
  /\ Z.rem (KernelTimerCallback tv) KernelTimer_SECOND = tv_usec tv.
Proof.
  apply (KernelTimerCallback_round_trip (mkTimeval 1793361600 250000)).
  - split; [| split]; vm_compute; congruence.
  - split; vm_compute; discriminate.
Defined.

(** X14.  The time functor of [KernelTimer] is strictly increasing in the
    kernel's time: one sample is below another exactly when its
    [(tv_sec, tv_usec)] comes first, as long as both fit in a
    [long long]. *)
Theorem KernelTimerCallback_monotone (tv tv' : timeval) :
  timeval_ok tv -> timeval_ok tv' ->
  representable kernel_timer_t (1000000 * tv_sec tv + tv_usec tv) ->
  representable kernel_timer_t (1000000 * tv_sec tv' + tv_usec tv') ->
  KernelTimerCallback tv < KernelTimerCallback tv'
  <-> tv_sec tv < tv_sec tv'
      \/ (tv_sec tv = tv_sec tv' /\ tv_usec tv < tv_usec tv').
Proof.
  intros Hok Hok' Hrep Hrep'.
  rewrite (KernelTimerCallback_exact tv Hok Hrep).
  rewrite (KernelTimerCallback_exact tv' Hok' Hrep').
  destruct Hok, Hok'. lia.
Qed.

Lemma KernelTimerCallback_monotone_witness :
  let tv := mkTimeval 1793361600 999999 in
  let tv' := mkTimeval 1793361601 0 in
  KernelTimerCallback tv < KernelTimerCallback tv'
  <-> tv_sec tv < tv_sec tv'
      \/ (tv_sec tv = tv_sec tv' /\ tv_usec tv < tv_usec tv').
Proof.
  apply (KernelTimerCallback_monotone (mkTimeval 1793361600 999999)
           (mkTimeval 1793361601 0)).
  - split; [| split]; vm_compute; congruence.
  - split; [| split]; vm_compute; congruence.
  - split; vm_compute; discriminate.
  - split; vm_compute; discriminate.
Defined.

(** X15.  The request that [KernelTimer::sleepyTime] hands to [nanosleep]
    is well formed and exact: the time functor is called once, the seconds
    are not negative, the nanoseconds are between 0 and 999,999,999, and
    together they are [waitTime ()] microseconds.  The hypothesis is the one
    of [waitTime_max]: no overflow in the last subtraction. *)
Theorem KernelTimer_sleepyTime_request (tm : Timer) (c : Clock) :
  (peek c <= add kernel_timer_t (add kernel_timer_t (_t0 tm) (_terr tm))
                 (_interval tm) ->
   add kernel_timer_t (add kernel_timer_t (_t0 tm) (_terr tm))
       (_interval tm) - peek c <= tmax kernel_timer_t) ->
  let req := fst (KernelTimer_sleepyTime_req tm c) in
  snd (KernelTimer_sleepyTime_req tm c) = tick c
  /\ 0 <= ts_sec req
  /\ 0 <= ts_nsec req <= 999999999
  /\ ts_sec req * 1000000000 + ts_nsec req
     = 1000 * fst (waitTime kernel_timer_t tm c).
Proof.
  intros Hfit. cbv zeta.
  unfold KernelTimer_sleepyTime_req, bind, ret.
  rewrite (waitTime_max kernel_timer_t tm c kernel_width Hfit).
  cbn [fst snd ts_sec ts_nsec].
  set (w := Z.max 0 _).
  assert (Hw : 0 <= w) by apply Z.le_max_l.
  unfold KernelTimer_SECOND, mul.
  rewrite Z.quot_div_nonneg, Z.rem_mod_nonneg by lia.
  pose proof (Z.mod_pos_bound w 1000000 ltac:(lia)) as Hr.
  pose proof (Z.div_mod w 1000000 ltac:(lia)) as Hdm.
  pose proof (Z.div_pos w 1000000 Hw ltac:(lia)) as Hq.
  rewrite (wrap_id kernel_timer_t (w mod 1000000 * 1000) kernel_width)
    by (apply (proj2 (kernel_representable _)); lia).
  repeat split; lia.
Qed.

Lemma KernelTimer_sleepyTime_request_witness :
  let c := clock_of [260000] 260000 in
  let req := fst (KernelTimer_sleepyTime_req example_timer c) in
  snd (KernelTimer_sleepyTime_req example_timer c) = tick c
  /\ 0 <= ts_sec req
  /\ 0 <= ts_nsec req <= 999999999
  /\ ts_sec req * 1000000000 + ts_nsec req
     = 1000 * fst (waitTime kernel_timer_t example_timer c).
Proof.
  apply (KernelTimer_sleepyTime_request example_timer
           (clock_of [260000] 260000)).
  intros _; vm_compute; discriminate.
Defined.

(** ** Degenerate intervals and [reset] *)

Lemma monotone_from_tick (c : Clock) :
  monotone_from c -> monotone_from (tick c) /\ peek c <= peek (tick c).
Proof.
  intros Hm. split.
  - intros j. cbn [tick source reads].
    replace (S (reads c) + j)%nat with (reads c + S j)%nat by lia.
    replace (S (reads c) + S j)%nat with (reads c + S (S j))%nat by lia.
    apply Hm.
  - unfold peek. cbn [tick source reads].
    pose proof (Hm 0%nat) as H0.
    rewrite Nat.add_0_r in H0.
    replace (reads c + 1)%nat with (S (reads c)) in H0 by lia. exact H0.
Qed.

(** X16.  An interval that is zero or negative is accepted and makes the
    timer fire on every poll: with a time functor that never goes backwards
    and starts at or after [_t0] and [_t1], every one of [n] polls of a
    running timer returns true and the frame count grows by [n].  The time
    bases are taken non-negative, the error accumulator not negative and the
    frame count within the range of [T]. *)
Theorem nonpositive_interval_fires_every_poll (T : TimeUnit) (n : nat)
    (tm : Timer) (c : Clock) :
  0 < width T -> clock_in T c -> monotone_from c ->
  running tm -> _interval tm <= 0 -> 0 <= _terr tm ->
  0 <= _t0 tm <= peek c -> 0 <= _t1 tm <= peek c ->
  representable T (_frames tm) -> _frames tm + Z.of_nat n <= tmax T ->
  map fst (fst (fst (polls T n tm c))) = repeat true n
  /\ getFrames (snd (fst (polls T n tm c))) = getFrames tm + Z.of_nat n.
Proof.
  intros Hw Hc. revert tm c Hc.
  pose proof (tmin_le_0 T Hw) as Hmin.
  induction n as [| n IH];
    intros tm c Hc Hm Hrun Hi He H0 H1 Hf Hfit.
  - cbn. unfold getFrames. split; [reflexivity | lia].
  - rewrite polls_S. cbn [fst snd map repeat].
    destruct (monotone_from_tick c Hm) as [Hm' Hle'].
    assert (Hc' : clock_in T (tick c)) by exact Hc.
    assert (Hnow : representable T (peek c)) by apply Hc.
    unfold representable in Hnow, Hf.
    assert (Hincr : incr T (_frames tm) = _frames tm + 1).
    { apply incr_exact; [exact Hw | exact Hf | lia]. }
    destruct (Z_lt_le_dec (_interval tm) (_terr tm)) as [Hdebt | Hnodebt].
    + rewrite (update_debt T tm c Hrun) by lia. cbn [fst snd].
      set (tm1 := mkTimer _ _ _ _ _ _ _ _).
      destruct (IH tm1 (tick c)) as [Hobs Hfr];
        cbn [tm1 _interval _terr _t0 _t1 _frames]; try assumption;
        try lia; try (rewrite Hincr; unfold representable; lia).
      rewrite Hobs, Hfr. unfold getFrames. cbn [tm1 _frames].
      split; [reflexivity | lia].
    + assert (Hzero : _interval tm = 0 /\ _terr tm = 0) by lia.
      destruct Hzero as [Hi0 He0].
      assert (Hthr : sub T (_interval tm) (_terr tm) = 0).
      { rewrite Hi0, He0. apply sub_diag; exact Hw. }
      assert (Hgap : sub T (peek c) (_t0 tm) = peek c - _t0 tm).
      { apply sub_exact; [exact Hw | unfold representable; lia]. }
      rewrite (update_boundary T tm c Hrun) by lia. cbn [fst snd].
      rewrite Hgap, Hi0, He0.
      unfold add. rewrite Z.add_0_r, (wrap_0 T Hw).
      unfold sub. rewrite Z.sub_0_r.
      rewrite (wrap_id T (peek c - _t0 tm) Hw)
        by (unfold representable; lia).
      set (tm1 := mkTimer _ _ _ _ _ _ _ _).
      destruct (IH tm1 (tick c)) as [Hobs Hfr];
        cbn [tm1 _interval _terr _t0 _t1 _frames]; try assumption;
        try lia; try (rewrite Hincr; unfold representable; lia).
      rewrite Hobs, Hfr. unfold getFrames. cbn [tm1 _frames].
      split; [reflexivity | lia].
Qed.

Lemma nonpositive_interval_fires_every_poll_witness :
  let tm := mkTimer 0 5 5 0 5 0 true false in
  let c := clock_of [5; 5; 9] 9 in
  map fst (fst (fst (polls Uint32 3 tm c))) = repeat true 3
  /\ getFrames (snd (fst (polls Uint32 3 tm c)))
     = getFrames tm + Z.of_nat 3.
Proof.
  apply (nonpositive_interval_fires_every_poll Uint32 3
           (mkTimer 0 5 5 0 5 0 true false) (clock_of [5; 5; 9] 9)).
  - reflexivity.
  - intros n. unfold clock_of; cbn [source].
    do 3 (destruct n as [| n]; [split; vm_compute; discriminate |]).
    destruct n; split; vm_compute; discriminate.
  - intros j. unfold clock_of; cbn [source reads].
    do 3 (destruct j as [| j]; [vm_compute; discriminate |]).
    destruct j; vm_compute; discriminate.
  - split; reflexivity.
  - vm_compute; discriminate.
  - vm_compute; discriminate.
  - split; vm_compute; discriminate.
  - split; vm_compute; discriminate.
  - split; vm_compute; discriminate.
  - vm_compute; discriminate.
Defined.

(** X17.  On a timer that is started and not paused, [reset] is [start]
    with the interval the timer has: both call the time functor once and
    leave the same timer, with no elapsed time and no frame.  On a stopped
    timer [reset] leaves it stopped. *)
Theorem reset_is_restart (T : TimeUnit) (tm : Timer) (c : Clock) :
  0 < width T ->
  _started (fst (reset tm c)) = _started tm
  /\ elapsed T (fst (reset tm c)) = 0
  /\ getFrames (fst (reset tm c)) = 0
  /\ (running tm -> reset tm c = start T (_interval tm) tm c).
Proof.
  intros Hw. rewrite reset_eq. cbn [fst].
  split; [reflexivity |].
  split; [unfold elapsed; cbn [_t1 _tstart]; apply sub_diag; exact Hw |].
  split; [reflexivity |].
  intros [Hs Hp]. rewrite start_eq, Hs, Hp. reflexivity.
Qed.

Lemma reset_is_restart_witness :
  _started (fst (reset example_timer (clock_of [7] 7)))
  = _started example_timer
  /\ elapsed Uint32 (fst (reset example_timer (clock_of [7] 7))) = 0
  /\ getFrames (fst (reset example_timer (clock_of [7] 7))) = 0
  /\ (running example_timer ->
      reset example_timer (clock_of [7] 7)
      = start Uint32 (_interval example_timer) example_timer
              (clock_of [7] 7)).
Proof.
  apply (reset_is_restart Uint32 example_timer (clock_of [7] 7)).
  reflexivity.
Defined.
